(** * Verification of the report client (src/App.jsx)

  A shallow embedding of the data-synchronisation and derived-view layer of
  the transit accessibility report client: the report form (photo
  selection, validation, geolocation, multipart encoding), the dashboard's
  client-side sort, the analytics scalars, the response handler and the
  query invalidation issued after a successful submission.

  JavaScript values are embedded as follows.  Strings are [string]; [null]
  and [undefined] are constructors of the value types that need them;
  numbers are IEEE-754 binary64 values, embedded through [spec_float] with
  precision 53 and maximal exponent 1024, so arithmetic rounds exactly as
  the interpreter does.  Objects iterated with [Object.keys] are association
  lists in insertion order; objects used as dictionaries are [gmap]s. *)

From Stdlib Require Import ZArith NArith List String Ascii Bool Lia.
From Stdlib Require Import DecimalString DecimalN SpecFloat Sorted Permutation.
From stdpp Require Import gmap strings.
Import ListNotations.

Local Open Scope string_scope.
Local Open Scope list_scope.

(** ** JavaScript values *)

Module Js.

(** A JavaScript number: a binary64 float. *)
Definition number : Type := spec_float.

Definition prec : Z := 53.
Definition emax : Z := 1024.

(** The number denoted by an integer literal or an integer JSON value. *)
Definition of_Z (z : Z) : number := binary_normalize prec emax z 0 false.
Definition of_N (n : N) : number := of_Z (Z.of_N n).

Definition div : number -> number -> number := SFdiv prec emax.
Definition mul : number -> number -> number := SFmul prec emax.
Definition add (x y : number) : number := SFadd prec emax x y.

(** [x > y] on numbers (false when either side is NaN). *)
Definition gt (x y : number) : bool := SFltb y x.

(** Truthiness of a number: [0], [-0] and [NaN] are falsy. *)
Definition truthy_number (x : number) : bool :=
  match x with
  | S754_zero _ | S754_nan => false
  | _ => true
  end.

(** Truthiness of a string: only the empty string is falsy. *)
Definition truthy_string (s : string) : bool :=
  match s with
  | EmptyString => false
  | String _ _ => true
  end.

(** The scalar values a report payload holds. *)
Inductive value : Type :=
| Null
| Str (s : string)
| Num (x : number).

(** [v !== null] *)
Definition not_null (v : value) : bool :=
  match v with
  | Null => false
  | _ => true
  end.

(** An object literal, keys in insertion order. *)
Definition object : Type := list (string * value).

(** [o[k]], [None] standing for [undefined]. *)
Fixpoint get (k : string) (o : object) : option value :=
  match o with
  | [] => None
  | (k', v) :: o' => if String.eqb k k' then Some v else get k o'
  end.

(** [o[k] = v]: an existing property keeps its position, a new one is
    added last. *)
Fixpoint assign (k : string) (v : value) (o : object) : object :=
  match o with
  | [] => [(k, v)]
  | (k', v') :: o' =>
      if String.eqb k k' then (k', v) :: o' else (k', v') :: assign k v o'
  end.

(** [Object.keys(o)] *)
Definition keys (o : object) : list string := map fst o.

(** Decimal rendering of a natural number. *)
Definition decimal (n : N) : string := NilEmpty.string_of_uint (N.to_uint n).

End Js.

(** ** The report form (ReportForm, lines 571-656) *)

Module ReportForm.

Import Js.

(** A selected file: what the form reads of it. *)
Record File : Type := mkFile { file_name : string; file_size : N }.

Record FormFields : Type := mkFormFields {
  station_city : string;
  station_name : string;
  issue_category : string;
  description : string;
  urgency_level : string;
  reporter_contact : string
}.

(** The three [useState] cells of the component. *)
Record State : Type := mkState {
  formData : FormFields;
  photo : option File;
  error : option string
}.

Definition emptyFields : FormFields :=
  {| station_city := ""; station_name := ""; issue_category := "";
     description := ""; urgency_level := "Medium"; reporter_contact := "" |}.

Definition initial : State :=
  {| formData := emptyFields; photo := None; error := None |}.

Definition setFormData (fd : FormFields) (st : State) : State :=
  {| formData := fd; photo := photo st; error := error st |}.
Definition setPhoto (p : option File) (st : State) : State :=
  {| formData := formData st; photo := p; error := error st |}.
Definition setError (e : option string) (st : State) : State :=
  {| formData := formData st; photo := photo st; error := e |}.

(** [10 * 1024 * 1024] *)
Definition MAX_PHOTO_SIZE : N := 10 * 1024 * 1024.

Definition SIZE_ERROR : string := "File size must be less than 10MB".
Definition REQUIRED_ERROR : string :=
  "Please fill in all required fields (marked with *).".

(** [handlePhotoChange]; the argument is [e.target.files[0]], [None] when
    the file list is empty. *)
Definition handlePhotoChange (file : option File) (st : State) : State :=
  if match file with
     | Some f => (MAX_PHOTO_SIZE <? file_size f)%N
     | None => false
     end
  then setError (Some SIZE_ERROR) st
  else setError None (setPhoto file st).

(** A part of the multipart body: a scalar (which the platform renders as
    text when it is appended) or a file. *)
Inductive FormPart : Type :=
| Field (v : value)
| FilePart (f : File).

Definition FormDataBody : Type := list (string * FormPart).

(** The variables of one [mutation.mutate] call. *)
Record MutationVars : Type := mkVars {
  reportData : object;
  vars_photo : option File
}.

(** [mutationFn]: the body handed to [submitReport], which posts it. *)
Definition mutationFn (vars : MutationVars) : FormDataBody :=
  let payload :=
    fold_left
      (fun (payload : FormDataBody) (key : string) =>
         match get key (reportData vars) with
         | Some v => if not_null v then payload ++ [(key, Field v)] else payload
         | None => payload
         end)
      (keys (reportData vars)) [] in
  match vars_photo vars with
  | Some f => payload ++ [("photo", FilePart f)]
  | None => payload
  end.

(** [position.coords] *)
Record Coords : Type := mkCoords { latitude : number; longitude : number }.

(** What [handleSubmit] asks of its environment. *)
Inductive Request : Type :=
| Nothing
| Mutate (vars : MutationVars)
| GetCurrentPosition (onPosition : Coords -> MutationVars)
                     (onFailure : MutationVars).

Definition reportPayload (fd : FormFields) : object :=
  [ ("station_city", Str (station_city fd));
    ("station_name", Str (station_name fd));
    ("issue_category", Str (issue_category fd));
    ("description", Str (description fd));
    ("urgency_level", Str (urgency_level fd));
    ("reporter_contact", Str (reporter_contact fd));
    ("status", Str "Submitted");
    ("latitude", Null);
    ("longitude", Null) ].

(** The guard of [handleSubmit]: some required field is falsy. *)
Definition incomplete (fd : FormFields) : bool :=
  negb (truthy_string (station_city fd))
  || negb (truthy_string (station_name fd))
  || negb (truthy_string (issue_category fd))
  || negb (truthy_string (description fd)).

(** [handleSubmit]; [geolocation] is the truthiness of
    [navigator.geolocation]. *)
Definition handleSubmit (geolocation : bool) (st : State) : State * Request :=
  let st := setError None st in
  if incomplete (formData st)
  then (setError (Some REQUIRED_ERROR) st, Nothing)
  else
    let payload := reportPayload (formData st) in
    let submitAction (data : object) : MutationVars :=
      {| reportData := data; vars_photo := photo st |} in
    if geolocation
    then (st,
          GetCurrentPosition
            (fun position =>
               let payload := assign "latitude" (Num (latitude position)) payload in
               let payload := assign "longitude" (Num (longitude position)) payload in
               submitAction payload)
            (submitAction payload))
    else (st, Mutate (submitAction payload)).

(** The platform's answer to [getCurrentPosition]: it invokes the success
    callback or the error callback. *)
Inductive GeoOutcome : Type :=
| Located (position : Coords)
| Failed.

(** What the platform does with the request.  [handleSubmit] passes no
    options to [getCurrentPosition], hence no timeout: the platform answers
    through one of the two callbacks, or it invokes neither (the permission
    prompt is left open, the position never arrives). *)
Inductive GeoResponse : Type :=
| Answered (outcome : GeoOutcome)
| Unanswered.

(** The [mutation.mutate] calls a request leads to. *)
Definition mutations (response : GeoResponse) (r : Request) : list MutationVars :=
  match r with
  | Nothing => []
  | Mutate vars => [vars]
  | GetCurrentPosition onPosition onFailure =>
      match response with
      | Answered (Located position) => [onPosition position]
      | Answered Failed => [onFailure]
      | Unanswered => []
      end
  end.

(** One submission attempt on a device: [device] is [None] when it has no
    geolocation capability, otherwise what the platform does with the
    request.  The result is the form state and the [mutation.mutate] calls
    made. *)
Definition attemptOn (device : option GeoResponse) (st : State)
  : State * list MutationVars :=
  let '(st', r) := handleSubmit (bool_decide (is_Some device)) st in
  (st', mutations (default Unanswered device) r).

(** An attempt the platform answers: [geo] is [None] when the device has no
    geolocation capability, otherwise the platform's answer. *)
Definition attempt (geo : option GeoOutcome) (st : State)
  : State * list MutationVars :=
  attemptOn (Answered <$> geo) st.

(** The same attempt, with the bodies posted to the server. *)
Definition submit (geo : option GeoOutcome) (st : State)
  : State * list FormDataBody :=
  let '(st', calls) := attempt geo st in
  (st', map mutationFn calls).

(** Every required field holds a non-empty string. *)
Definition complete (fd : FormFields) : Prop :=
  station_city fd <> "" /\ station_name fd <> ""
  /\ issue_category fd <> "" /\ description fd <> "".

(** The [onSuccess] and [onError] handlers of the mutation. *)
Definition onSuccess (st : State) : State :=
  setError None (setPhoto None (setFormData emptyFields st)).

Definition onError (message : string) (st : State) : State :=
  setError
    (Some ("Failed to submit report. Details: "
           +:+ (if truthy_string message then message else "Unknown Error")
           +:+ "."))
    st.

(** The events the form reacts to.  A submission is taken together with
    the platform's answer to its position request: [Submitted geo] is a
    click on the submit button on a device without the capability ([None])
    or one whose request the platform answers with [geo]. *)
Inductive Event : Type :=
| FieldsEdited (fd : FormFields)
| PhotoChosen (file : option File)
| Submitted (geo : option GeoOutcome)
| MutationSucceeded
| MutationFailed (message : string).

Definition step (ev : Event) (st : State) : State * list FormDataBody :=
  match ev with
  | FieldsEdited fd => (setFormData fd st, [])
  | PhotoChosen file => (handlePhotoChange file st, [])
  | Submitted geo => submit geo st
  | MutationSucceeded => (onSuccess st, [])
  | MutationFailed message => (onError message st, [])
  end.

(** Runs a sequence of events; the posted bodies are collected in order. *)
Fixpoint run (evs : list Event) (st : State) : State * list FormDataBody :=
  match evs with
  | [] => (st, [])
  | ev :: evs' =>
      let '(st1, posted1) := step ev st in
      let '(st2, posted2) := run evs' st1 in
      (st2, posted1 ++ posted2)
  end.

(** The size of the photo part of a body, if it has one. *)
Definition photo_sizes (body : FormDataBody) : list N :=
  flat_map (fun kv => match snd kv with
                      | FilePart f => [file_size f]
                      | Field _ => []
                      end) body.

Definition body_keys (body : FormDataBody) : list string := map fst body.

(** The parts [mutationFn] appends for one key of the report object. *)
Definition parts_of (o : object) (key : string) : FormDataBody :=
  match get key o with
  | Some v => if not_null v then [(key, Field v)] else []
  | None => []
  end.

(** The photo held by the form never exceeds the ceiling. *)
Definition photo_within_ceiling (st : State) : Prop :=
  match photo st with
  | Some f => (file_size f <= MAX_PHOTO_SIZE)%N
  | None => True
  end.

End ReportForm.

(** ** Array.prototype.sort *)

Module JsArray.

Section Sort.

Context {A : Type}.

(** The comparator handed to [sort]; [None] stands for a [NaN] result. *)
Variable comparefn : A -> A -> option Z.

(** The language's SortCompare: a [NaN] comparator result counts as [+0]. *)
Definition SortCompare (x y : A) : Z :=
  match comparefn x y with
  | Some v => v
  | None => 0
  end.

(** [x] is placed after every leading [y] it compares greater than, and
    before the first one it does not. *)
Fixpoint insert (x : A) (l : list A) : list A :=
  match l with
  | [] => [x]
  | y :: l' => if (0 <? SortCompare x y)%Z then y :: insert x l' else x :: l
  end.

(** [sort] is stable (ECMAScript 2019): elements that compare equal keep
    their order.  It is embedded as a stable insertion sort.  For a
    comparator that compares keys the stable arrangement is unique
    ([stable_arrangement_unique] below), and when every comparison counts
    as [+0] the array is left as it is ([sort_all_equal]): there every
    conforming engine returns this array.  For a comparator that is not
    consistent (some of its results [NaN] and others not) the language
    leaves the order to the implementation, and engines differ from this
    embedding: the properties of the dashboard's orders below are stated
    for inputs of the first two kinds only. *)
Fixpoint sort (l : list A) : list A :=
  match l with
  | [] => []
  | x :: l' => insert x (sort l')
  end.

End Sort.

(** The comparator [(a, b) => key(b) - key(a)]: larger keys first. *)
Definition descending {A : Type} (key : A -> Z) : A -> A -> option Z :=
  fun a b => Some (key b - key a)%Z.

(** [a] may stand before [b] in an array ordered by decreasing key. *)
Definition key_descends {A : Type} (key : A -> Z) (a b : A) : Prop :=
  (key b <= key a)%Z.

(** The elements of [l] whose key is [k], in their order in [l]. *)
Definition with_key {A : Type} (key : A -> Z) (k : Z) (l : list A) : list A :=
  List.filter (fun a => (key a =? k)%Z) l.

End JsArray.

(** ** The dashboard's client-side sort (DashboardContent, lines 857-871) *)

Module Dashboard.

(** The [created_date] property of a fetched report. *)
Inductive DateField : Type :=
| DateUndefined
| DateNull
| DateString (s : string).

(** The properties of a report the sort reads ([None]: the property is
  absent), and its identifier. *)
Record Report : Type := mkReport {
id : N;
urgency_level : option string;
created_date : DateField
}.

(** [{ "Critical": 4, "High": 3, "Medium": 2, "Low": 1 }] *)
Definition urgencyOrder : gmap string Z :=
<["Critical" := 4%Z]> (<["High" := 3%Z]> (<["Medium" := 2%Z]> (<["Low" := 1%Z]> ∅))).

(** [urgencyOrder[r.urgency_level]], [None] for [undefined]. *)
Definition rank (r : Report) : option Z :=
match urgency_level r with
| Some level => urgencyOrder !! level
| None => None
end.

(** The level a report is shown with: the card's destructuring default
  makes a missing level "Medium" (line 434; the badge falls back to the
  same level, line 412).  [shown_rank] is its rank in the table, [0] for a
  level outside it. *)
Definition shown_level (r : Report) : string :=
default "Medium" (urgency_level r).

Definition shown_rank (r : Report) : Z :=
default 0%Z (urgencyOrder !! shown_level r).

(** [a - b]; [undefined] and invalid dates convert to [NaN], which
  propagates.  Only the sign of the result is used by [sort]. *)
Definition minus (a b : option Z) : option Z :=
match a, b with
| Some x, Some y => Some (x - y)%Z
| _, _ => None
end.

(** [filters.sort] is falsy when it is absent or empty. *)
Definition truthy (sortKey : option string) : bool :=
match sortKey with
| Some s => Js.truthy_string s
| None => false
end.

Definition is_key (sortKey : option string) (s : string) : bool :=
match sortKey with
| Some k => String.eqb k s
| None => false
end.

Section WithDateParser.

(** The platform's [Date.parse]: the time value in milliseconds of a date
    string, [None] when the string does not denote a date. *)
Variable Date_parse : string -> option Z.

(** The time value of [new Date(r.created_date)], [None] for an invalid
    date: [undefined] converts to [NaN], [null] to [0]. *)
Definition time (r : Report) : option Z :=
  match created_date r with
  | DateUndefined => None
  | DateNull => Some 0%Z
  | DateString s => Date_parse s
  end.

(** The comparator of [sortedReports]. *)
Definition compareReports (sortKey : option string) (a b : Report) : option Z :=
  if negb (truthy sortKey) || is_key sortKey "created_date:desc"
  then minus (time b) (time a)
  else if is_key sortKey "urgency_level:desc"
  then minus (rank b) (rank a)
  else Some 0%Z.

(** [sortedReports]; [reports] is [None] while no data has arrived. *)
Definition sortedReports (reports : option (list Report))
                         (sortKey : option string) : list Report :=
  match reports with
  | None => []
  | Some rs => JsArray.sort (compareReports sortKey) rs
  end.

(** [ta] is not earlier than [tb], an invalid date counting as the
    earliest moment. *)
Definition not_earlier (ta tb : option Z) : Prop :=
  match ta, tb with
  | _, None => True
  | None, Some _ => False
  | Some x, Some y => (y <= x)%Z
  end.

(** Newest first, reports without a valid date last. *)
Definition newest_first (l : list Report) : Prop :=
  Sorted (fun a b => not_earlier (time a) (time b)) l.

End WithDateParser.

(** The keys the two orders compare, read as integers ([0] where the
    report has none). *)
Definition rank_key (r : Report) : Z := default 0%Z (rank r).
Definition time_key (Date_parse : string -> option Z) (r : Report) : Z :=
  default 0%Z (time Date_parse r).

(** The reports of rank [k], in their order in [l]. *)
Definition of_rank (k : Z) (l : list Report) : list Report :=
  List.filter (fun r => match rank r with
                        | Some k' => (k' =? k)%Z
                        | None => false
                        end) l.

(** Most urgent first: each report's rank is at least the next one's. *)
Definition most_urgent_first (l : list Report) : Prop :=
  Sorted (fun a b => exists ra rb,
              rank a = Some ra /\ rank b = Some rb /\ (rb <= ra)%Z) l.

(** The sort keys that select the order by date: none, the empty string and
    ["created_date:desc"]. *)
Definition by_date (sortKey : option string) : Prop :=
  sortKey = None \/ sortKey = Some "" \/ sortKey = Some "created_date:desc".

(** The four urgency levels of the data model. *)
Definition URGENCY_LEVELS : list string := ["Low"; "Medium"; "High"; "Critical"].

Definition known_urgency (r : Report) : Prop :=
exists level, urgency_level r = Some level /\ In level URGENCY_LEVELS.

(** A date parser for the examples: it reads a calendar date written
  YYYY-MM-DD as midnight UTC and rejects every other string. *)
Definition digit (c : ascii) : option Z :=
let n := Z.of_nat (nat_of_ascii c) in
if ((48 <=? n) && (n <=? 57))%Z then Some (n - 48)%Z else None.

Definition days_from_civil (y m d : Z) : Z :=
let y := (if m <=? 2 then y - 1 else y)%Z in
let era := (y / 400)%Z in
let yoe := (y - era * 400)%Z in
let doy := ((153 * (if 2 <? m then m - 3 else m + 9) + 2) / 5 + d - 1)%Z in
let doe := (yoe * 365 + yoe / 4 - yoe / 100 + doy)%Z in
(era * 146097 + doe - 719468)%Z.

Definition calendar_date_parse (s : string) : option Z :=
match s with
| String y1 (String y2 (String y3 (String y4 (String "-"
    (String m1 (String m2 (String "-"
      (String d1 (String d2 EmptyString))))))))) =>
    match digit y1, digit y2, digit y3, digit y4,
          digit m1, digit m2, digit d1, digit d2 with
    | Some a, Some b, Some c, Some d, Some e, Some f, Some g, Some h =>
        let y := (1000 * a + 100 * b + 10 * c + d)%Z in
        let m := (10 * e + f)%Z in
        let dd := (10 * g + h)%Z in
        if ((1 <=? m) && (m <=? 12) && (1 <=? dd) && (dd <=? 31))%Z
        then Some (days_from_civil y m dd * 86400000)%Z
        else None
    | _, _, _, _, _, _, _, _ => None
    end
| _ => None
end.

End Dashboard.

(** ** The analytics scalars (AnalyticsContent, lines 968-972) *)

Module Analytics.

Import Js.

(** The fields of the aggregate statistics the scalars read; [None] when
    the field is absent from the response. *)
Record Stats : Type := mkStats {
  total : option number;
  by_status : option (gmap string number)
}.

(** [v || 0] *)
Definition or_zero (v : option number) : number :=
  match v with
  | Some x => if truthy_number x then x else of_Z 0
  | None => of_Z 0
  end.

(** [stats.by_status?.[label] || 0] *)
Definition count (stats : Stats) (label : string) : number :=
  or_zero (match by_status stats with
           | Some m => m !! label
           | None => None
           end).

Definition totalReports (stats : Stats) : number := or_zero (total stats).
Definition resolvedCount (stats : Stats) : number := count stats "Resolved".
Definition pendingCount (stats : Stats) : number :=
  add (count stats "Submitted") (count stats "Under Review").

(** The integer nearest to [m * 2^e * 10^digits], the larger one on a tie. *)
Definition scaled_round (digits : nat) (m : positive) (e : Z) : Z :=
  let scaled := (Z.pos m * 10 ^ Z.of_nat digits)%Z in
  if (0 <=? e)%Z then (scaled * 2 ^ e)%Z
  else ((2 * scaled + 2 ^ (- e)) / 2 ^ (- e + 1))%Z.

(** [m * 2^e >= 10^21] *)
Definition at_least_1e21 (m : positive) (e : Z) : bool :=
  if (0 <=? e)%Z then (10 ^ 21 <=? Z.pos m * 2 ^ e)%Z
  else (10 ^ 21 * 2 ^ (- e) <=? Z.pos m)%Z.

(** Places the decimal point before the last [digits] digits of [n],
    padding with zeros on the left. *)
Definition place_point (digits : nat) (n : Z) : string :=
  let s := decimal (Z.to_N n) in
  let s := string_of_list_ascii
             (repeat "0"%char (S digits - String.length s)
              ++ list_ascii_of_string s) in
  match digits with
  | O => s
  | S _ =>
      let k := (String.length s - digits)%nat in
      substring 0 k s +:+ "." +:+ substring k digits s
  end.

(** [x.toFixed(digits)].  At magnitudes of [10^21] and above the method
    switches to the exponent notation of number-to-string conversion,
    which is not embedded: the result is [None] there. *)
Definition toFixed (digits : nat) (x : number) : option string :=
  match x with
  | S754_nan => Some "NaN"
  | S754_infinity sign => Some (if sign then "-Infinity" else "Infinity")
  | S754_zero _ => Some (place_point digits 0)
  | S754_finite sign m e =>
      if at_least_1e21 m e then None
      else Some ((if sign then "-" else "")
                 +:+ place_point digits (scaled_round digits m e))
  end.

(** What the completion-rate card shows: the number [0] or the string
    produced by [toFixed]. *)
Inductive Scalar : Type :=
| Number (x : number)
| Text (s : string).

(** [totalReports > 0 ? ((resolvedCount / totalReports) * 100).toFixed(1) : 0] *)
Definition completionRate (stats : Stats) : option Scalar :=
  if gt (totalReports stats) (of_Z 0)
  then Text <$> toFixed 1 (mul (div (resolvedCount stats) (totalReports stats))
                               (of_Z 100))
  else Some (Number (of_Z 0)).

(** Statistics over [n] reports of which [r] are resolved. *)
Definition counts (n r : N) : Stats :=
  {| total := Some (of_N n);
     by_status := Some (<["Resolved" := of_N r]> ∅) |}.

(** [n] tenths written with one decimal, as in ["30.0"]. *)
Definition tenths (n : N) : string := place_point 1 (Z.of_N n).

End Analytics.

(** ** Rounding in binary64 *)

Module Binary64.

(** The rounding record [mrs] holds the quotient [P / Qd] truncated,
    together with the round bit and the sticky bit of its remainder: the
    round bit says the remainder is at least half of [Qd], the sticky bit
    that it is neither zero nor exactly half. *)
Definition located (P Qd : Z) (mrs : shr_record) : Prop :=
  shr_m mrs = (P / Qd)%Z
  /\ shr_r mrs = (Qd <=? 2 * (P mod Qd))%Z
  /\ shr_s mrs = (negb (P mod Qd =? 0)%Z && negb (2 * (P mod Qd) =? Qd)%Z).

End Binary64.

(** ** The response handler and the record fetch (lines 241-283, 1112-1128) *)

Module Api.

Import Js.

Definition API_BASE_URL : string := "http://L-backend.up.railway.app".

(** What the handler reads of a [Response]. *)
Record Response : Type := mkResponse {
  status : N;
  statusText : string;
  body : string;
  contentType : option string
}.

(** [res.ok]: the status is in the range 200-299. *)
Definition ok (res : Response) : bool :=
  ((200 <=? status res) && (status res <=? 299))%N.

(** A thrown exception: the name of its constructor and its message. *)
Record Exception : Type := mkException {
  exn_name : string;
  exn_message : string
}.

(** [new Error(message)] *)
Definition Error (message : string) : Exception :=
  {| exn_name := "Error"; exn_message := message |}.

(** What the handler does: it throws, returns the promise [res.json()] of
    a body with the given text, or returns the text. *)
Inductive Outcome : Type :=
| Throw (e : Exception)
| ReturnJson (text : string)
| ReturnText (text : string).

(** [s.includes(needle)] *)
Definition includes (needle s : string) : bool :=
  match index 0 needle s with
  | Some _ => true
  | None => false
  end.

Definition errorMessage (res : Response) : string :=
  "API Error: " +:+ decimal (status res) +:+ " - "
  +:+ (if truthy_string (body res) then body res else statusText res).

(** [handleResponse]; the JSON text is returned unparsed. *)
Definition handleResponse (res : Response) : Outcome :=
  if negb (ok res) then Throw (Error (errorMessage res))
  else
    match contentType res with
    | Some ct =>
        if includes "application/json" ct then ReturnJson (body res)
        else ReturnText (body res)
    | None => ReturnText (body res)
    end.

(** What [fetch] settles with: a rejection (no response arrived) or a
    response. *)
Inductive Fetched : Type :=
| Rejected (e : Exception)
| Responded (res : Response).

(** [getReport], over the platform's [fetch]. *)
Definition getReport (fetch : string -> Fetched) (id : string) : Outcome :=
  match fetch (API_BASE_URL +:+ "/reports/" +:+ id) with
  | Rejected e => Throw e
  | Responded res => handleResponse res
  end.

(** How an outcome settles the query: the promise [res.json()] rejects
    with a SyntaxError when the body is not JSON.  [JSON_failure text] is
    the message of that exception, [None] when [text] is JSON. *)
Definition settle (JSON_failure : string -> option string) (o : Outcome) : Outcome :=
  match o with
  | ReturnJson text =>
      match JSON_failure text with
      | Some message => Throw {| exn_name := "SyntaxError"; exn_message := message |}
      | None => o
      end
  | _ => o
  end.

(** [isError] of the record query, on the outcome the query settled with
    ([settle]): a thrown exception.  An exception of the handler is settled
    as it is, whatever the JSON parser does. *)
Definition isError (o : Outcome) : bool :=
  match o with
  | Throw _ => true
  | _ => false
  end.

(** The error line [ReportsContent] renders for the record query. *)
Definition errorLine (id : string) (o : Outcome) : option string :=
  if isError o
  then Some ("Error fetching report " +:+ id +:+ ". (Check console for API error)")
  else None.

(** A server that answers every request with [res]. *)
Definition answering (res : Response) : string -> Fetched :=
  fun _ => Responded res.

(** What a failed record fetch shows of itself: the kind of the exception
    and the line rendered for it. *)
Definition surfaced (id : string) (o : Outcome) : option string * option string :=
  (match o with
   | Throw e => Some (exn_name e)
   | _ => None
   end,
   errorLine id o).

End Api.

(** ** The query cache and the invalidation after a submission *)

Module QueryClient.

(** A component of a query key: a string, or an object of filter
    parameters whose values are strings or [null] ([None]). *)
Inductive KeyPart : Type :=
| KStr (s : string)
| KObj (params : list (string * option string)).

Definition QueryKey : Type := list KeyPart.

(** [params[k]]; the outer [None] stands for [undefined]. *)
Fixpoint param (k : string) (params : list (string * option string))
  : option (option string) :=
  match params with
  | [] => None
  | (k', v) :: params' => if String.eqb k k' then Some v else param k params'
  end.

Definition same_scalar (a b : option (option string)) : bool :=
  match a, b with
  | None, None => true
  | Some None, Some None => true
  | Some (Some x), Some (Some y) => String.eqb x y
  | _, _ => false
  end.

(** Modelled from the spec: key matching of the query cache store
    (section 4.1), whose code (the imported query client) is not under
    src/.  A cached key matches a filter key when every component of the
    filter key is matched by the component at the same position: strings
    by equality, parameter objects property by property. *)
Definition partialMatchPart (a b : KeyPart) : bool :=
  match a, b with
  | KStr x, KStr y => String.eqb x y
  | KObj pa, KObj pb =>
      forallb (fun k => same_scalar (param k pa) (param k pb)) (map fst pb)
  | _, _ => false
  end.

(** Modelled from the spec: the same store's matching of whole keys, the
    filter key [b] being a prefix of the cached key [a] component by
    component. *)
Fixpoint partialMatchKey (a b : QueryKey) : bool :=
  match b with
  | [] => true
  | pb :: b' =>
      match a with
      | [] => false
      | pa :: a' => partialMatchPart pa pb && partialMatchKey a' b'
      end
  end.

(** Modelled from the spec: key equality of section 3 (the same resource
    and the same canonical serialisation of the parameters): each key
    matches the other. *)
Definition sameKey (a b : QueryKey) : bool :=
  partialMatchKey a b && partialMatchKey b a.

Inductive Status : Type := idle | loading | success | error.

(** Modelled from the spec: the cache entry of section 3, with the mark
    that invalidation sets on it. *)
Record CacheEntry : Type := mkEntry {
  queryKey : QueryKey;
  status : Status;
  fetchedAt : option Z;
  isInvalidated : bool
}.

Definition Store : Type := list CacheEntry.

Definition entry (k : QueryKey) (store : Store) : option CacheEntry :=
  List.find (fun e => sameKey (queryKey e) k) store.

Definition is_error (s : Status) : bool :=
  match s with
  | error => true
  | _ => false
  end.

(** Modelled from the spec: whether [read(key, fetcher, staleTimeMs)] at
    time [now] triggers a fetch: there is no entry, or it is in the error
    state, or it was invalidated, or it is older than the stale time. *)
Definition readFetches (now staleTime : Z) (k : QueryKey) (store : Store) : bool :=
  match entry k store with
  | None => true
  | Some e =>
      is_error (status e) || isInvalidated e
      || match fetchedAt e with
         | Some t => (staleTime <? now - t)%Z
         | None => true
         end
  end.

Definition invalidated (e : CacheEntry) : CacheEntry :=
  {| queryKey := queryKey e; status := status e;
     fetchedAt := fetchedAt e; isInvalidated := true |}.

(** Modelled from the spec: [invalidate] marks the matching entries and
    keeps their data.  [exact] selects key equality; otherwise the filter
    key may be a prefix of the cached key. *)
Definition invalidateQueries (exact : bool) (filterKey : QueryKey)
                             (store : Store) : Store :=
  map (fun e =>
         if (if exact then sameKey (queryKey e) filterKey
             else partialMatchKey (queryKey e) filterKey)
         then invalidated e else e)
      store.

(** The keys the pages subscribe to, with their stale times. *)

(** [['reports', filters]] (DashboardContent, line 837), [staleTime: 5000] *)
Definition reportsKey (filters : list (string * option string)) : QueryKey :=
  [KStr "reports"; KObj filters].
Definition reportsStaleTime : Z := 5000.

(** [['stats']] (AnalyticsContent, line 928), [staleTime: 60000] *)
Definition statsKey : QueryKey := [KStr "stats"].
Definition statsStaleTime : Z := 60000.

(** The [onSuccess] handler [HomeContent] gives the report form (line 818):
    [queryClient.invalidateQueries({ queryKey: ['reports', 'stats'] })]. *)
Definition onSuccessKey : QueryKey := [KStr "reports"; KStr "stats"].

Definition onSuccess (exact : bool) (store : Store) : Store :=
  invalidateQueries exact onSuccessKey store.

(** An entry fetched successfully at time [t]. *)
Definition fetched (k : QueryKey) (t : Z) : CacheEntry :=
  {| queryKey := k; status := success; fetchedAt := Some t;
     isInvalidated := false |}.

End QueryClient.

(** ** The properties as the specification words them

  Used to compare the specification with the code where the two differ. *)

Module Stated.

Import Js ReportForm.

(** The required fields of the form, with the labels the form shows. *)
Definition required : list (string * string * (FormFields -> string)) :=
  [ ("station_city", "City", station_city);
    ("station_name", "Station", station_name);
    ("issue_category", "Issue Category", issue_category);
    ("description", "Description", description) ].

(** The required fields that are empty, by name and label. *)
Definition missing (fd : FormFields) : list (string * string) :=
  map (fun f => fst f)
      (List.filter (fun f => negb (truthy_string (snd f fd))) required).

(** A message lists a field when it contains its name or its label. *)
Definition lists (message : string) (field : string * string) : bool :=
  Api.includes (fst field) message || Api.includes (snd field) message.

(** Specification 4.4 step 1: an incomplete form is rejected with an error
    that lists the missing fields, and nothing is posted. *)
Definition rejects_listing_missing (geo : option GeoOutcome) (st : State) : Prop :=
  missing (formData st) <> [] ->
  snd (submit geo st) = []
  /\ exists message,
       error (fst (submit geo st)) = Some message
       /\ forallb (lists message) (missing (formData st)) = true.

(** Specification 7: a record fetch answered with 404 surfaces differently
    from one answered with another non-2xx status. *)
Definition not_found_is_distinct (id : string) (other : Api.Response) : Prop :=
  Api.ok other = false ->
  Api.status other <> 404%N ->
  forall notFound : Api.Response,
    Api.status notFound = 404%N ->
    Api.surfaced id (Api.getReport (Api.answering notFound) id)
    <> Api.surfaced id (Api.getReport (Api.answering other) id).

(** Specification 4.4 step 3: an attempt that passes validation leads to
    exactly one submission, with or without coordinates, whatever becomes of
    the position request, and shows no error. *)
Definition submits_exactly_once (device : option GeoResponse) (st : State) : Prop :=
  complete (formData st) ->
  (exists vars, snd (attemptOn device st) = [vars])
  /\ error (fst (attemptOn device st)) = None.

(** Specification 4.3: for every collection, the urgency order shows ranks
    that never increase from one report to the next. *)
Definition urgency_ranks_descend (Date_parse : string -> option Z)
                                 (l : list Dashboard.Report) : Prop :=
  Sorted (fun a b => (Dashboard.shown_rank b <= Dashboard.shown_rank a)%Z)
         (Dashboard.sortedReports Date_parse (Some l) (Some "urgency_level:desc")).

(** Specification 4.5: the completion rate is [100 * resolved / total]
    rounded to one decimal: a number of tenths at most half a tenth away
    from the exact share, whichever way a tie is rounded. *)
Definition shows_rounded_share (n r : N) : Prop :=
  exists t : N,
    Analytics.completionRate (Analytics.counts n r)
    = Some (Analytics.Text (Analytics.tenths t))
    /\ (2 * Z.abs (Z.of_N t * Z.of_N n - 1000 * Z.of_N r) <= Z.of_N n)%Z.

End Stated.

(** ** The controls of the report form (lines 331-380, 565-569, 676-768) *)

Module FormControls.

Import Js ReportForm.

(** The station lists of the two cities. *)
Definition STATIONS : gmap string (list string) :=
  <["Edmonton" :=
      [ "Clareview"; "Belvedere"; "Coliseum"; "Stadium"; "Churchill"; "Central";
        "Bay/Enterprise Square"; "Corona"; "Grandin/Government Centre";
        "University"; "Health Sciences"; "McKernan/Belgravia";
        "South Campus/Fort Edmonton Park"; "Southgate"; "Century Park";
        "Mill Woods" ]]>
  (<["Calgary" :=
      [ "Tuscany"; "Crowfoot"; "Dalhousie"; "Brentwood"; "University";
        "Banff Trail"; "Lions Park"; "SAIT/ACAD/Jubilee"; "Sunnyside";
        "Centre Street"; "City Hall"; "Victoria Park/Stampede";
        "Erlton/Stampede"; "39 Avenue"; "Chinook"; "Heritage"; "Southland";
        "Anderson"; "Canyon Meadows"; "Fish Creek-Lacombe";
        "Somerset-Bridlewood" ]]> ∅).

(** The values of the city control's items. *)
Definition CITY_OPTIONS : list string := ["Edmonton"; "Calgary"].

Definition ISSUE_CATEGORIES : list string :=
  [ "Slippery Surface"; "Blocked Access"; "Broken Elevator"; "Lighting Issue";
    "Vandalism"; "Safety Concern"; "Other" ].

Definition URGENCY_LEVELS : list string := ["Low"; "Medium"; "High"; "Critical"].

(** The items of the station control: it is rendered only for a truthy
    city, with one item per station of [STATIONS[city]]; [None] when it is
    not rendered or the city has no list. *)
Definition stationOptions (city : string) : option (list string) :=
  if truthy_string city then STATIONS !! city else None.

(** The change handlers the form gives its controls; each copies the fields
    and overrides what it names. *)
Definition onCityChange (value : string) (fd : FormFields) : FormFields :=
  {| station_city := value; station_name := "";
     issue_category := issue_category fd; description := description fd;
     urgency_level := urgency_level fd; reporter_contact := reporter_contact fd |}.

Definition onStationChange (value : string) (fd : FormFields) : FormFields :=
  {| station_city := station_city fd; station_name := value;
     issue_category := issue_category fd; description := description fd;
     urgency_level := urgency_level fd; reporter_contact := reporter_contact fd |}.

Definition onCategoryChange (value : string) (fd : FormFields) : FormFields :=
  {| station_city := station_city fd; station_name := station_name fd;
     issue_category := value; description := description fd;
     urgency_level := urgency_level fd; reporter_contact := reporter_contact fd |}.

Definition onUrgencyChange (value : string) (fd : FormFields) : FormFields :=
  {| station_city := station_city fd; station_name := station_name fd;
     issue_category := issue_category fd; description := description fd;
     urgency_level := value; reporter_contact := reporter_contact fd |}.

Definition onDescriptionChange (value : string) (fd : FormFields) : FormFields :=
  {| station_city := station_city fd; station_name := station_name fd;
     issue_category := issue_category fd; description := value;
     urgency_level := urgency_level fd; reporter_contact := reporter_contact fd |}.

Definition onContactChange (value : string) (fd : FormFields) : FormFields :=
  {| station_city := station_city fd; station_name := station_name fd;
     issue_category := issue_category fd; description := description fd;
     urgency_level := urgency_level fd; reporter_contact := value |}.

(** A value entered through one of the six controls. *)
Inductive Input : Type :=
| CityChosen (value : string)
| StationChosen (value : string)
| CategoryChosen (value : string)
| UrgencyChosen (value : string)
| DescriptionTyped (value : string)
| ContactTyped (value : string).

Definition change (i : Input) (fd : FormFields) : FormFields :=
  match i with
  | CityChosen value => onCityChange value fd
  | StationChosen value => onStationChange value fd
  | CategoryChosen value => onCategoryChange value fd
  | UrgencyChosen value => onUrgencyChange value fd
  | DescriptionTyped value => onDescriptionChange value fd
  | ContactTyped value => onContactChange value fd
  end.

(** The control offers the value: a selection control only reports the
    value of one of its enabled items, a text control any text. *)
Definition offered (fd : FormFields) (i : Input) : Prop :=
  match i with
  | CityChosen value => In value CITY_OPTIONS
  | StationChosen value =>
      exists stations,
        stationOptions (station_city fd) = Some stations /\ In value stations
  | CategoryChosen value => In value ISSUE_CATEGORIES
  | UrgencyChosen value => In value URGENCY_LEVELS
  | DescriptionTyped _ | ContactTyped _ => True
  end.

(** What a user and the environment do to the form. *)
Inductive Action : Type :=
| Entered (i : Input)
| PhotoPicked (file : option File)
| SubmitPressed (geo : option GeoOutcome)
| Succeeded
| FailedWith (message : string).

Definition event_of (a : Action) (st : State) : Event :=
  match a with
  | Entered i => FieldsEdited (change i (formData st))
  | PhotoPicked file => PhotoChosen file
  | SubmitPressed geo => Submitted geo
  | Succeeded => MutationSucceeded
  | FailedWith message => MutationFailed message
  end.

(** Performs the actions in order; the posted bodies are collected. *)
Fixpoint perform (acts : list Action) (st : State) : State * list FormDataBody :=
  match acts with
  | [] => (st, [])
  | a :: acts' =>
      let '(st1, posted1) := step (event_of a st) st in
      let '(st2, posted2) := perform acts' st1 in
      (st2, posted1 ++ posted2)
  end.

(** Every value entered is one its control offers at that moment. *)
Fixpoint available (acts : list Action) (st : State) : Prop :=
  match acts with
  | [] => True
  | a :: acts' =>
      match a with
      | Entered i => offered (formData st) i
      | _ => True
      end
      /\ available acts' (fst (step (event_of a st) st))
  end.

(** The fields hold values the controls can produce: the station is empty
    or a station of the city, the category empty or one of the categories,
    the urgency one of the levels. *)
Definition from_controls (fd : FormFields) : Prop :=
  (station_name fd = ""
   \/ exists stations,
        STATIONS !! station_city fd = Some stations
        /\ In (station_name fd) stations)
  /\ (issue_category fd = "" \/ In (issue_category fd) ISSUE_CATEGORIES)
  /\ In (urgency_level fd) URGENCY_LEVELS.

(** The body an attempt on a complete form posts: the six fields and the
    status, the coordinates when the position was obtained, the photo when
    there is one. *)
Definition bodyOf (geo : option GeoOutcome) (st : State) : FormDataBody :=
  [ ("station_city", Field (Str (station_city (formData st))));
    ("station_name", Field (Str (station_name (formData st))));
    ("issue_category", Field (Str (issue_category (formData st))));
    ("description", Field (Str (description (formData st))));
    ("urgency_level", Field (Str (urgency_level (formData st))));
    ("reporter_contact", Field (Str (reporter_contact (formData st))));
    ("status", Field (Str "Submitted")) ]
  ++ match geo with
     | Some (Located position) =>
         [ ("latitude", Field (Num (latitude position)));
           ("longitude", Field (Num (longitude position))) ]
     | _ => []
     end
  ++ match photo st with
     | Some f => [("photo", FilePart f)]
     | None => []
     end.

End FormControls.

(** ** The post of a report and its outcome (lines 300-306, 583-613) *)

Module Submission.

Import Js ReportForm.

(** [submitReport], over the platform's [fetch] of the POST request. *)
Definition submitReport (fetch : FormDataBody -> Api.Fetched)
                        (payload : FormDataBody) : Api.Outcome :=
  match fetch payload with
  | Api.Rejected e => Api.Throw e
  | Api.Responded res => Api.handleResponse res
  end.

(** The form after [onError] with an exception of message [detail]: the
    fields and the photo are kept, nothing is posted. *)
Definition failure_shown (st : State) (detail : string) : State * list FormDataBody :=
  ({| formData := formData st; photo := photo st;
      error := Some ("Failed to submit report. Details: "
                     +:+ (if truthy_string detail then detail else "Unknown Error")
                     +:+ ".") |}, []).

Section WithJsonParser.

(** The platform's JSON parser, as far as the form can tell: the message of
    the exception [res.json()] raises on a text, [None] when the text is
    valid JSON. *)
Variable JSON_failure : string -> option string.

(** The handler the mutation runs when [mutationFn] settles: [onError] with
    the exception when the handler throws or the JSON parser rejects the
    body, [onSuccess] otherwise. *)
Definition settled (o : Api.Outcome) : Event :=
  match o with
  | Api.Throw e => MutationFailed (Api.exn_message e)
  | Api.ReturnJson text =>
      match JSON_failure text with
      | Some message => MutationFailed message
      | None => MutationSucceeded
      end
  | Api.ReturnText _ => MutationSucceeded
  end.

End WithJsonParser.

End Submission.

(** ** The list request and the dashboard filters (lines 258-267, 500-562,
    850-855) *)

Module Requests.

Import Js.

(** The filter object: parameter names with a string or [null] ([None]). *)
Definition Filters : Type := list (string * option string).

(** [{ ...filters, [k]: v }]: a parameter already present keeps its place. *)
Fixpoint with_param (k : string) (v : option string) (filters : Filters) : Filters :=
  match filters with
  | [] => [(k, v)]
  | (k', v') :: filters' =>
      if String.eqb k k' then (k', v) :: filters'
      else (k', v') :: with_param k v filters'
  end.

(** The pairs [listReports] appends to the search parameters of the URL:
    one per key whose value is neither [null], [undefined] nor empty. *)
Definition searchParams (params : Filters) : list (string * string) :=
  fold_left
    (fun (appended : list (string * string)) (key : string) =>
       match QueryClient.param key params with
       | Some (Some v) => if truthy_string v then appended ++ [(key, v)] else appended
       | _ => appended
       end)
    (map fst params) [].

(** What one key contributes to the search parameters. *)
Definition appended_for (params : Filters) (key : string) : list (string * string) :=
  match QueryClient.param key params with
  | Some (Some v) => if truthy_string v then [(key, v)] else []
  | _ => []
  end.

(** A value [listReports] sends: a non-empty string. *)
Definition sent (v : option string) : bool :=
  match v with
  | Some s => truthy_string s
  | None => false
  end.

(** The search parameters other than [k], in their order. *)
Definition without (k : string) (query : list (string * string))
  : list (string * string) :=
  List.filter (fun kv => negb (String.eqb (fst kv) k)) query.

(** The request [listReports] sends: the address without its query, and
    the search parameters. *)
Record Get : Type := mkGet { path : string; query : list (string * string) }.

(** [new URL(API_BASE_URL + "/reports")] normalises the address it is
    given: the host is written in lower case. *)
Definition reportsUrl : string := "http://l-backend.up.railway.app/reports".

Definition listReports (params : Filters) : Get :=
  {| path := reportsUrl; query := searchParams params |}.

(** The handlers of [ReportFilters]: the search box, and the three
    selections, whose item "all" stands for no constraint. *)
Definition onSearchChange (text : string) (filters : Filters) : Filters :=
  with_param "search" (Some text) filters.

Definition selected (value : string) : option string :=
  if String.eqb value "all" then None else Some value.

Definition onStatusChange (value : string) (filters : Filters) : Filters :=
  with_param "status" (selected value) filters.
Definition onUrgencyChange (value : string) (filters : Filters) : Filters :=
  with_param "urgency" (selected value) filters.
Definition onCityChange (value : string) (filters : Filters) : Filters :=
  with_param "city" (selected value) filters.

(** [handleSortChange] of the dashboard. *)
Definition handleSortChange (sortValue : string) (filters : Filters) : Filters :=
  with_param "sort" (Some sortValue) filters.

(** [filters.sort] *)
Definition sort_of (filters : Filters) : option string :=
  match QueryClient.param "sort" filters with
  | Some v => v
  | None => None
  end.

End Requests.

(** ** Reports of one moment (for the stability of the order by date) *)

Module DashboardOrders.

Import Dashboard.

(** The reports whose time value is [t], in their order in [l]. *)
Definition at_time (Date_parse : string -> option Z) (t : Z)
                   (l : list Report) : list Report :=
  List.filter (fun r => match time Date_parse r with
                        | Some t' => (t' =? t)%Z
                        | None => false
                        end) l.

End DashboardOrders.

(** ** The report card (lines 424-493) *)

Module ReportCard.

Import Js.

(** [s.split(sep)[0]]: the part of [s] before the first [sep]. *)
Fixpoint before (sep : ascii) (s : string) : string :=
  match s with
  | EmptyString => EmptyString
  | String c s' => if Ascii.eqb c sep then EmptyString else String c (before sep s')
  end.

(** The name shown for [created_by] ([None]: the property is absent);
    nothing is shown for a falsy value. *)
Definition author (created_by : option string) : option string :=
  match created_by with
  | Some s =>
      if truthy_string s
      then Some (if Api.includes "@" s then before "@" s else s)
      else None
  | None => None
  end.

(** [fullPhotoUrl] *)
Definition fullPhotoUrl (photo_url : option string) : option string :=
  match photo_url with
  | Some p => if truthy_string p then Some (Api.API_BASE_URL +:+ p) else None
  | None => None
  end.

End ReportCard.

(** ** The chart series (AnalyticsContent, lines 956-966) *)

Module Series.

(** A point of a series. *)
Record Point : Type := mkPoint { name : string; value : Z }.

(** [Object.entries(o || {}).map(([name, value]) => ({ name, value }))];
    the argument lists the entries of the field in the order
    [Object.entries] yields them, [None] when the field is absent.  The
    values are integer counts. *)
Definition points (entries : option (list (string * Z))) : list Point :=
  map (fun e => {| name := fst e; value := snd e |}) (default [] entries).

(** [categoryData]: the points sorted with [(a, b) => b.value - a.value]. *)
Definition categoryData (by_category : option (list (string * Z))) : list Point :=
  JsArray.sort (fun a b => Some (value b - value a)%Z) (points by_category).

Definition urgencyData (by_urgency : option (list (string * Z))) : list Point :=
  points by_urgency.

Definition cityData (by_city : option (list (string * Z))) : list Point :=
  points by_city.

(** An item of [top_stations]. *)
Record StationCount : Type := mkStationCount { station : string; count : Z }.

Definition topStations (top_stations : option (list StationCount)) : list Point :=
  map (fun item => {| name := station item; value := count item |})
      (default [] top_stations).

(** The colours of the urgency chart and the colour of its [index]-th
    cell, [COLORS[index % COLORS.length]]. *)
Definition COLORS : list string :=
  [ "#f97316"; "#ef4444"; "#eab308"; "#22c55e"; "#3b82f6"; "#8b5cf6";
    "#a855f7"; "#6366f1" ].

Definition cellColor (index : nat) : option string :=
  nth_error COLORS (index mod length COLORS).

End Series.

(** * Properties *)

(** ** The report form *)

Section ReportFormFacts.

Import Js ReportForm.

Lemma truthy_string_empty (s : string) : truthy_string s = false <-> s = "".
Proof. destruct s; simpl; split; congruence. Qed.

Lemma incomplete_false (fd : FormFields) : incomplete fd = false <-> complete fd.
Proof.
  unfold incomplete, complete.
  destruct (station_city fd), (station_name fd), (issue_category fd),
    (description fd); simpl; split; intros H; try discriminate; try reflexivity;
    try (repeat split; discriminate); destruct H as (? & ? & ? & ?); congruence.
Qed.

Lemma incomplete_true (fd : FormFields) :
  incomplete fd = true
  <-> station_city fd = "" \/ station_name fd = ""
      \/ issue_category fd = "" \/ description fd = "".
Proof.
  unfold incomplete.
  destruct (station_city fd), (station_name fd), (issue_category fd),
    (description fd); simpl; split; intros H; try discriminate; try reflexivity;
    auto; destruct H as [H | [H | [H | H]]]; discriminate.
Qed.

Lemma fold_append (o : object) (ks : list string) (acc : FormDataBody) :
  fold_left
    (fun (payload : FormDataBody) (key : string) =>
       match get key o with
       | Some v => if not_null v then payload ++ [(key, Field v)] else payload
       | None => payload
       end) ks acc
  = acc ++ flat_map (parts_of o) ks.
Proof.
  revert acc. induction ks as [| k ks IH]; intros acc; simpl.
  - now rewrite app_nil_r.
  - rewrite IH. unfold parts_of at 2.
    destruct (get k o) as [v |]; [destruct (not_null v) |]; simpl;
      now rewrite <- ?app_assoc.
Qed.

(** The body is the non-null fields in key order, then the photo. *)
Lemma mutationFn_parts (vars : MutationVars) :
  mutationFn vars
  = flat_map (parts_of (reportData vars)) (keys (reportData vars))
    ++ match vars_photo vars with
       | Some f => [("photo", FilePart f)]
       | None => []
       end.
Proof.
  unfold mutationFn. rewrite fold_append. simpl.
  destruct (vars_photo vars); [reflexivity | now rewrite app_nil_r].
Qed.

Lemma field_in_body (vars : MutationVars) (k : string) (v : value) :
  In (k, Field v) (mutationFn vars) ->
  get k (reportData vars) = Some v /\ not_null v = true.
Proof.
  rewrite mutationFn_parts, in_app_iff, in_flat_map.
  intros [(k' & _ & Hin) | Hin].
  - unfold parts_of in Hin.
    destruct (get k' (reportData vars)) as [v' |] eqn:Hget; [| contradiction].
    destruct (not_null v') eqn:Hnn; [| contradiction].
    destruct Hin as [Heq | []]. injection Heq as -> ->. auto.
  - destruct (vars_photo vars); simpl in Hin; [| contradiction].
    destruct Hin as [Heq | []]. discriminate.
Qed.

Lemma photo_sizes_body (vars : MutationVars) :
  photo_sizes (mutationFn vars)
  = match vars_photo vars with
    | Some f => [file_size f]
    | None => []
    end.
Proof.
  rewrite mutationFn_parts. unfold photo_sizes. rewrite flat_map_app.
  assert (Hnone : forall ks,
             flat_map (fun kv : string * FormPart =>
                         match snd kv with
                         | FilePart f => [file_size f]
                         | Field _ => []
                         end)
               (flat_map (parts_of (reportData vars)) ks) = []).
  { induction ks as [| k ks IH]; simpl; [reflexivity |].
    rewrite flat_map_app, IH, app_nil_r. unfold parts_of.
    destruct (get k (reportData vars)) as [v |]; [destruct (not_null v) |];
      reflexivity. }
  rewrite Hnone. destruct (vars_photo vars); reflexivity.
Qed.

(** What an attempt on a complete form does, on any device. *)
Lemma attemptOn_complete (device : option GeoResponse) (st : State) :
  incomplete (formData st) = false ->
  attemptOn device st
  = (setError None st,
     match device with
     | Some Unanswered => []
     | _ =>
         [ {| reportData :=
                match device with
                | Some (Answered (Located position)) =>
                    assign "longitude" (Num (longitude position))
                      (assign "latitude" (Num (latitude position))
                         (reportPayload (formData st)))
                | _ => reportPayload (formData st)
                end;
              vars_photo := photo st |} ]
     end).
Proof.
  intros Hc. unfold attemptOn, handleSubmit. simpl. rewrite Hc.
  destruct device as [[[position |] |] |]; reflexivity.
Qed.

(** What an attempt on a complete form does when the platform answers. *)
Lemma attempt_complete (geo : option GeoOutcome) (st : State) :
  incomplete (formData st) = false ->
  attempt geo st
  = (setError None st,
     [ {| reportData :=
            match geo with
            | Some (Located position) =>
                assign "longitude" (Num (longitude position))
                  (assign "latitude" (Num (latitude position))
                     (reportPayload (formData st)))
            | _ => reportPayload (formData st)
            end;
          vars_photo := photo st |} ]).
Proof.
  intros Hc. unfold attempt. rewrite attemptOn_complete by exact Hc.
  destruct geo as [[position |] |]; reflexivity.
Qed.

Lemma attempt_incomplete (geo : option GeoOutcome) (st : State) :
  incomplete (formData st) = true ->
  attempt geo st = (setError (Some REQUIRED_ERROR) st, []).
Proof.
  intros Hc. unfold attempt, attemptOn, handleSubmit. simpl. rewrite Hc.
  destruct geo as [[position |] |]; reflexivity.
Qed.

Lemma step_keeps_ceiling (ev : Event) (st : State) :
  photo_within_ceiling st ->
  photo_within_ceiling (fst (step ev st))
  /\ forall body n, In body (snd (step ev st)) -> In n (photo_sizes body) ->
                    (n <= MAX_PHOTO_SIZE)%N.
Proof.
  unfold photo_within_ceiling. intros Hst.
  destruct ev as [fd | file | geo | | message]; simpl;
    try (split; [assumption || exact I | intros ? ? []]).
  - unfold handlePhotoChange. split; [| intros ? ? []].
    destruct file as [f |]; simpl; [| exact I].
    destruct (MAX_PHOTO_SIZE <? file_size f)%N eqn:Hlt; simpl.
    + assumption.
    + apply N.ltb_ge in Hlt. assumption.
  - unfold submit. destruct (incomplete (formData st)) eqn:Hc.
    + rewrite attempt_incomplete by assumption. simpl.
      split; [assumption | intros ? ? []].
    + rewrite attempt_complete by assumption. simpl. split; [assumption |].
      intros body n [<- | []]. rewrite photo_sizes_body. simpl.
      destruct (photo st) as [f |]; simpl; [| intros []].
      intros [<- | []]. assumption.
Qed.

Lemma run_keeps_ceiling (evs : list Event) (st : State) :
  photo_within_ceiling st ->
  forall body n, In body (snd (run evs st)) -> In n (photo_sizes body) ->
                 (n <= MAX_PHOTO_SIZE)%N.
Proof.
  revert st. induction evs as [| ev evs IH]; intros st Hst body n; simpl.
  - intros [].
  - destruct (step_keeps_ceiling ev st Hst) as [Hst1 Hposted].
    destruct (step ev st) as [st1 posted1]. simpl in *.
    specialize (IH st1 Hst1 body n).
    destruct (run evs st1) as [st2 posted2]. simpl in *.
    rewrite in_app_iff. intros [Hin | Hin]; eauto.
Qed.

End ReportFormFacts.

Section ReportFormClaims.

Import Js ReportForm.

(** C2, as stated, fails: a form whose only empty required field is the
    description is rejected with a message that names neither that field nor
    its label. *)
Lemma incomplete_form_error_names_no_field :
  ~ Stated.rejects_listing_missing None
      {| formData :=
           {| station_city := "Edmonton"; station_name := "Central";
              issue_category := "Other"; description := "";
              urgency_level := "Medium"; reporter_contact := "" |};
         photo := None; error := None |}.
Proof.
  unfold Stated.rejects_listing_missing. intros H.
  destruct H as [_ (message & Hmessage & Hlists)].
  - vm_compute. discriminate.
  - vm_compute in Hmessage. injection Hmessage as <-.
    vm_compute in Hlists. discriminate.
Qed.

(** C2, amended: whenever one of station_city, station_name, issue_category
    and description is empty, the submission is rejected at once with the
    fixed message asking to fill in all required fields, whichever fields are
    missing; nothing is posted and the rest of the form state is kept. *)
Theorem incomplete_form_is_rejected (geo : option GeoOutcome) (st : State) :
  station_city (formData st) = "" \/ station_name (formData st) = ""
  \/ issue_category (formData st) = "" \/ description (formData st) = "" ->
  submit geo st
  = ({| formData := formData st; photo := photo st;
        error := Some "Please fill in all required fields (marked with *)." |},
     []).
Proof.
  intros Hempty. apply incomplete_true in Hempty.
  unfold submit. rewrite attempt_incomplete by assumption. reflexivity.
Qed.

(** An empty form submitted on a device whose position lookup fails. *)
Lemma incomplete_form_is_rejected_witness :
  submit (Some Failed)
    {| formData := emptyFields; photo := Some (mkFile "ramp.jpg" 2048);
       error := None |}
  = ({| formData := emptyFields; photo := Some (mkFile "ramp.jpg" 2048);
        error := Some "Please fill in all required fields (marked with *)." |},
     []).
Proof.
  apply (incomplete_form_is_rejected (Some Failed)
           {| formData := emptyFields; photo := Some (mkFile "ramp.jpg" 2048);
              error := None |}).
  left. reflexivity.
Defined.

(** C3: a photo of exactly 10,485,760 bytes is accepted (it becomes the
    form's photo, the error is cleared, and a complete form is then posted
    with it), a larger one is rejected with the size-limit error without
    anything being posted, and no body posted by the form ever carries a
    photo above that size. *)
Theorem photo_size_ceiling :
  MAX_PHOTO_SIZE = 10485760%N
  /\ (forall (st : State) (f : File) (geo : option GeoOutcome),
        file_size f = 10485760%N ->
        handlePhotoChange (Some f) st
        = {| formData := formData st; photo := Some f; error := None |}
        /\ (complete (formData st) ->
            exists body,
              snd (run [PhotoChosen (Some f); Submitted geo] st) = [body]
              /\ In ("photo", FilePart f) body))
  /\ (forall (st : State) (f : File),
        (10485760 < file_size f)%N ->
        step (PhotoChosen (Some f)) st
        = ({| formData := formData st; photo := photo st;
              error := Some "File size must be less than 10MB" |}, []))
  /\ (forall (evs : list Event) (body : FormDataBody) (n : N),
        In body (snd (run evs initial)) -> In n (photo_sizes body) ->
        (n <= 10485760)%N).
Proof.
  assert (Hmax : MAX_PHOTO_SIZE = 10485760%N) by reflexivity.
  split; [exact Hmax |]. split; [| split].
  - intros st f geo Hsize.
    assert (Hstep : handlePhotoChange (Some f) st
                    = {| formData := formData st; photo := Some f; error := None |}).
    { unfold handlePhotoChange. rewrite Hsize, Hmax. reflexivity. }
    split; [exact Hstep |].
    intros Hcomplete. apply incomplete_false in Hcomplete.
    simpl. rewrite Hstep. unfold submit.
    rewrite attempt_complete by exact Hcomplete. simpl.
    eexists. split; [reflexivity |].
    rewrite mutationFn_parts. simpl. apply in_or_app. right. left. reflexivity.
  - intros st f Hsize. simpl. unfold handlePhotoChange.
    rewrite Hmax. apply N.ltb_lt in Hsize. rewrite Hsize. reflexivity.
  - intros evs body n. rewrite <- Hmax. apply run_keeps_ceiling. exact I.
Qed.

(** A file of exactly the ceiling and one a byte larger, on the initial form. *)
Lemma photo_size_ceiling_witness :
  handlePhotoChange (Some (mkFile "exit.png" 10485760)) initial
  = {| formData := emptyFields; photo := Some (mkFile "exit.png" 10485760);
       error := None |}
  /\ step (PhotoChosen (Some (mkFile "exit.png" 10485761))) initial
     = ({| formData := emptyFields; photo := None;
           error := Some "File size must be less than 10MB" |}, []).
Proof.
  destruct photo_size_ceiling as (_ & Haccept & Hreject & _).
  split.
  - apply (Haccept initial (mkFile "exit.png" 10485760) None). reflexivity.
  - apply (Hreject initial (mkFile "exit.png" 10485761)). reflexivity.
Defined.

(** C4, as stated, fails: the position request is made without a timeout,
    and as long as the platform invokes neither callback a complete form is
    not submitted. *)
Lemma unanswered_position_request_submits_nothing :
  ~ Stated.submits_exactly_once (Some Unanswered)
      {| formData :=
           {| station_city := "Calgary"; station_name := "Chinook";
              issue_category := "Broken Elevator";
              description := "Elevator out of service";
              urgency_level := "High"; reporter_contact := "" |};
         photo := None; error := None |}.
Proof.
  unfold Stated.submits_exactly_once. intros H.
  assert (Hcomplete : complete
                        {| station_city := "Calgary"; station_name := "Chinook";
                           issue_category := "Broken Elevator";
                           description := "Elevator out of service";
                           urgency_level := "High"; reporter_contact := "" |})
    by (repeat split; discriminate).
  destruct (H Hcomplete) as [[vars Hcalls] _].
  vm_compute in Hcalls. discriminate.
Qed.

(** C4, amended: on a complete form the geolocation attempt never sets an
    error.  Where the device has no geolocation capability, and where the
    platform answers the position request, exactly one [mutation.mutate]
    call is made: with the coordinates when the position was obtained, with
    latitude and longitude null when the capability is absent or the lookup
    failed.  The request is made without a timeout: as long as the platform
    invokes neither callback, no call is made. *)
Theorem geolocation_submits_once_answered
        (device : option GeoResponse) (st : State) :
  complete (formData st) ->
  error (fst (attemptOn device st)) = None
  /\ match device with
     | Some Unanswered => snd (attemptOn device st) = []
     | _ =>
         exists vars,
           snd (attemptOn device st) = [vars]
           /\ vars_photo vars = photo st
           /\ get "status" (reportData vars) = Some (Str "Submitted")
           /\ get "description" (reportData vars)
              = Some (Str (description (formData st)))
           /\ match device with
              | Some (Answered (Located position)) =>
                  get "latitude" (reportData vars) = Some (Num (latitude position))
                  /\ get "longitude" (reportData vars)
                     = Some (Num (longitude position))
              | _ =>
                  get "latitude" (reportData vars) = Some Null
                  /\ get "longitude" (reportData vars) = Some Null
              end
     end.
Proof.
  intros Hcomplete. apply incomplete_false in Hcomplete.
  rewrite attemptOn_complete by exact Hcomplete.
  split; [reflexivity |].
  destruct device as [[[position |] |] |]; simpl;
    try reflexivity; eexists; repeat split; reflexivity.
Qed.

(** A complete form showing an earlier error, submitted where the position
    lookup fails. *)
Lemma geolocation_submits_once_answered_witness :
  error (fst (attemptOn (Some (Answered Failed))
                {| formData :=
                     {| station_city := "Calgary"; station_name := "Chinook";
                        issue_category := "Broken Elevator";
                        description := "Elevator out of service";
                        urgency_level := "High"; reporter_contact := "" |};
                   photo := None; error := Some "stale" |})) = None
  /\ exists vars,
       snd (attemptOn (Some (Answered Failed))
              {| formData :=
                   {| station_city := "Calgary"; station_name := "Chinook";
                      issue_category := "Broken Elevator";
                      description := "Elevator out of service";
                      urgency_level := "High"; reporter_contact := "" |};
                 photo := None; error := Some "stale" |}) = [vars]
       /\ get "latitude" (reportData vars) = Some Null.
Proof.
  assert (Hcomplete : complete
                        {| station_city := "Calgary"; station_name := "Chinook";
                           issue_category := "Broken Elevator";
                           description := "Elevator out of service";
                           urgency_level := "High"; reporter_contact := "" |})
    by (repeat split; discriminate).
  destruct (geolocation_submits_once_answered (Some (Answered Failed))
              {| formData :=
                   {| station_city := "Calgary"; station_name := "Chinook";
                      issue_category := "Broken Elevator";
                      description := "Elevator out of service";
                      urgency_level := "High"; reporter_contact := "" |};
                 photo := None; error := Some "stale" |} Hcomplete)
    as (Herror & vars & Hcalls & _ & _ & _ & Hlat & _).
  split; [exact Herror |].
  exists vars. split; [exact Hcalls | exact Hlat].
Defined.

(** C9: a field of the report object whose value is null gets no part in
    the multipart body, no part of any body carries null, and when the
    geolocation attempt is unavailable or fails the posted body has no
    latitude and no longitude part at all. *)
Theorem null_fields_are_omitted :
  (forall (vars : MutationVars) (k : string),
      get k (reportData vars) = Some Null ->
      forall v, ~ In (k, Field v) (mutationFn vars))
  /\ (forall (vars : MutationVars) (k : string),
        ~ In (k, Field Null) (mutationFn vars))
  /\ (forall (st : State) (geo : option GeoOutcome),
        complete (formData st) ->
        geo = None \/ geo = Some Failed ->
        exists body,
          snd (submit geo st) = [body]
          /\ ~ In "latitude" (body_keys body)
          /\ ~ In "longitude" (body_keys body)
          /\ In ("status", Field (Str "Submitted")) body).
Proof.
  split; [| split].
  - intros vars k Hnull v Hin. apply field_in_body in Hin as [Hget Hnn].
    rewrite Hnull in Hget. injection Hget as <-. discriminate.
  - intros vars k Hin. apply field_in_body in Hin as [_ Hnn]. discriminate.
  - intros st geo Hcomplete Hgeo. apply incomplete_false in Hcomplete.
    unfold submit. rewrite attempt_complete by exact Hcomplete.
    eexists. split; [reflexivity |].
    rewrite mutationFn_parts.
    destruct Hgeo as [-> | ->]; simpl; unfold body_keys;
      (destruct (photo st); simpl;
       (repeat split;
        [ intros H; repeat (destruct H as [H | H]; [discriminate |]); exact H
        | intros H; repeat (destruct H as [H | H]; [discriminate |]); exact H
        | auto 10 ])).
Qed.

(** A complete form submitted on a device without geolocation. *)
Lemma null_fields_are_omitted_witness :
  exists body,
    snd (submit None
           {| formData :=
                {| station_city := "Edmonton"; station_name := "Corona";
                   issue_category := "Lighting Issue";
                   description := "Platform lights are off";
                   urgency_level := "Medium"; reporter_contact := "" |};
              photo := None; error := None |}) = [body]
    /\ ~ In "latitude" (body_keys body).
Proof.
  destruct null_fields_are_omitted as (_ & _ & Hsubmit).
  destruct (Hsubmit
              {| formData :=
                   {| station_city := "Edmonton"; station_name := "Corona";
                      issue_category := "Lighting Issue";
                      description := "Platform lights are off";
                      urgency_level := "Medium"; reporter_contact := "" |};
                 photo := None; error := None |} None)
    as (body & Hposted & Hlat & _).
  - repeat split; discriminate.
  - left. reflexivity.
  - exists body. split; [exact Hposted | exact Hlat].
Defined.

(** C10: choosing a file above the size ceiling sets the size-limit error
    and leaves the photo (and the fields) as they were; choosing a file
    within the ceiling makes it the photo and clears the error. *)
Theorem oversized_choice_keeps_photo (st : State) (f : File) :
  ((MAX_PHOTO_SIZE < file_size f)%N ->
   handlePhotoChange (Some f) st
   = {| formData := formData st; photo := photo st;
        error := Some "File size must be less than 10MB" |})
  /\ ((file_size f <= MAX_PHOTO_SIZE)%N ->
      handlePhotoChange (Some f) st
      = {| formData := formData st; photo := Some f; error := None |}).
Proof.
  unfold handlePhotoChange. split; intros Hsize.
  - apply N.ltb_lt in Hsize. rewrite Hsize. reflexivity.
  - apply N.ltb_ge in Hsize. rewrite Hsize. reflexivity.
Qed.

(** An oversized choice after a valid one, and a valid choice after an error. *)
Lemma oversized_choice_keeps_photo_witness :
  handlePhotoChange (Some (mkFile "huge.jpg" 20000000))
    {| formData := emptyFields; photo := Some (mkFile "ok.jpg" 4096);
       error := None |}
  = {| formData := emptyFields; photo := Some (mkFile "ok.jpg" 4096);
       error := Some "File size must be less than 10MB" |}
  /\ handlePhotoChange (Some (mkFile "ok.jpg" 4096))
       {| formData := emptyFields; photo := None;
          error := Some "File size must be less than 10MB" |}
     = {| formData := emptyFields; photo := Some (mkFile "ok.jpg" 4096);
          error := None |}.
Proof.
  split.
  - apply (oversized_choice_keeps_photo
             {| formData := emptyFields; photo := Some (mkFile "ok.jpg" 4096);
                error := None |} (mkFile "huge.jpg" 20000000)).
    reflexivity.
  - apply (oversized_choice_keeps_photo
             {| formData := emptyFields; photo := None;
                error := Some "File size must be less than 10MB" |}
             (mkFile "ok.jpg" 4096)).
    vm_compute. discriminate.
Defined.

End ReportFormClaims.

(** ** Sorting *)

Section SortFacts.

Import JsArray.

Context {A : Type}.

Lemma insert_permutation (f : A -> A -> option Z) (x : A) (l : list A) :
  Permutation (x :: l) (insert f x l).
Proof.
  induction l as [| y l IH]; simpl; [reflexivity |].
  destruct (0 <? SortCompare f x y)%Z; [| reflexivity].
  rewrite perm_swap. now apply perm_skip.
Qed.

Lemma sort_permutation (f : A -> A -> option Z) (l : list A) :
  Permutation l (sort f l).
Proof.
  induction l as [| x l IH]; simpl; [reflexivity |].
  rewrite <- insert_permutation. now apply perm_skip.
Qed.

(** [sort] only consults the comparator on elements of the array. *)
Lemma insert_agree (f g : A -> A -> option Z) (x : A) (l : list A) :
  (forall y, In y l -> f x y = g x y) -> insert f x l = insert g x l.
Proof.
  induction l as [| y l IH]; intros Hfg; simpl; [reflexivity |].
  unfold SortCompare. rewrite (Hfg y) by (left; reflexivity).
  rewrite IH by (intros z Hz; apply Hfg; right; exact Hz). reflexivity.
Qed.

Lemma sort_agree (f g : A -> A -> option Z) (l : list A) :
  (forall x y, In x l -> In y l -> f x y = g x y) -> sort f l = sort g l.
Proof.
  induction l as [| x l IH]; intros Hfg; simpl; [reflexivity |].
  rewrite IH by (intros a b Ha Hb; apply Hfg; right; assumption).
  apply insert_agree. intros y Hy. apply Hfg; [left; reflexivity |].
  right. eapply Permutation_in; [symmetry; apply sort_permutation | exact Hy].
Qed.

(** When every pair compares as equal or as [NaN], the array is returned as
    it is. *)
Lemma sort_all_equal (f : A -> A -> option Z) (l : list A) :
  (forall x y, In x l -> In y l -> SortCompare f x y = 0%Z) -> sort f l = l.
Proof.
  induction l as [| x l IH]; intros Heq; simpl; [reflexivity |].
  rewrite IH by (intros a b Ha Hb; apply Heq; right; assumption).
  destruct l as [| y l]; simpl; [reflexivity |].
  rewrite Heq by (simpl; auto). reflexivity.
Qed.

Section Keyed.

Variable key : A -> Z.

Lemma SortCompare_descending (x y : A) :
  SortCompare (descending key) x y = (key y - key x)%Z.
Proof. reflexivity. Qed.

Lemma insert_hd (x a : A) (l : list A) :
  key_descends key a x -> HdRel (key_descends key) a l ->
  HdRel (key_descends key) a (insert (descending key) x l).
Proof.
  intros Hax Hal. destruct l as [| y l]; simpl; [now constructor |].
  destruct (0 <? SortCompare (descending key) x y)%Z; constructor;
    [now inversion Hal | exact Hax].
Qed.

Lemma insert_sorted (x : A) (l : list A) :
  Sorted (key_descends key) l ->
  Sorted (key_descends key) (insert (descending key) x l).
Proof.
  induction 1 as [| y l Hl IH Hhd]; simpl; [repeat constructor |].
  rewrite SortCompare_descending.
  destruct (0 <? key y - key x)%Z eqn:Hcmp.
  - apply Z.ltb_lt in Hcmp. constructor; [exact IH |].
    apply insert_hd; [unfold key_descends; lia | exact Hhd].
  - apply Z.ltb_ge in Hcmp. constructor; [now constructor |].
    constructor. unfold key_descends. lia.
Qed.

Lemma sort_sorted (l : list A) :
  Sorted (key_descends key) (sort (descending key) l).
Proof.
  induction l as [| x l IH]; simpl; [constructor | now apply insert_sorted].
Qed.

Lemma with_key_insert (k : Z) (x : A) (l : list A) :
  with_key key k (insert (descending key) x l)
  = if (key x =? k)%Z then x :: with_key key k l else with_key key k l.
Proof.
  unfold with_key. induction l as [| y l IH]; simpl; [reflexivity |].
  rewrite SortCompare_descending.
  destruct (0 <? key y - key x)%Z eqn:Hcmp; simpl; [| reflexivity].
  apply Z.ltb_lt in Hcmp. rewrite IH.
  destruct (key x =? k)%Z eqn:Hx; [| reflexivity].
  apply Z.eqb_eq in Hx.
  assert (Hy : (key y =? k)%Z = false) by (apply Z.eqb_neq; lia).
  rewrite Hy. reflexivity.
Qed.

(** Stability: the elements of each key keep their order. *)
Lemma sort_stable (k : Z) (l : list A) :
  with_key key k (sort (descending key) l) = with_key key k l.
Proof.
  induction l as [| x l IH]; simpl; [reflexivity |].
  rewrite with_key_insert, IH. unfold with_key. simpl.
  destruct (key x =? k)%Z; reflexivity.
Qed.

Lemma key_descends_transitive : Relations_1.Transitive (key_descends key).
Proof. intros a b c Hab Hbc. unfold key_descends in *. lia. Qed.

Lemma with_key_nonempty (k : Z) (l : list A) (x : A) (rest : list A) :
  with_key key k l = x :: rest -> In x l /\ key x = k.
Proof.
  intros Heq.
  assert (Hin : In x (with_key key k l)) by (rewrite Heq; left; reflexivity).
  unfold with_key in Hin. apply filter_In in Hin as [Hin Hk].
  apply Z.eqb_eq in Hk. auto.
Qed.

(** A descending array starts with an element of the largest key. *)
Lemma head_has_largest_key (x y : A) (l1 l2 : list A) :
  StronglySorted (key_descends key) (y :: l2) ->
  with_key key (key x) (x :: l1) = with_key key (key x) (y :: l2) ->
  (key x <= key y)%Z.
Proof.
  intros Hs Heq.
  assert (Hx : In x (with_key key (key x) (y :: l2))).
  { rewrite <- Heq. unfold with_key. simpl. rewrite Z.eqb_refl. left. reflexivity. }
  unfold with_key in Hx. apply filter_In in Hx as [[-> | Hin] _]; [lia |].
  inversion Hs as [| ? ? _ Hall]; subst.
  rewrite List.Forall_forall in Hall. specialize (Hall x Hin).
  unfold key_descends in Hall. lia.
Qed.

(** There is one descending arrangement of an array that keeps the order of
    the elements of each key. *)
Lemma stable_arrangement_unique (l1 l2 : list A) :
  Sorted (key_descends key) l1 -> Sorted (key_descends key) l2 ->
  (forall k, with_key key k l1 = with_key key k l2) ->
  l1 = l2.
Proof.
  intros H1 H2.
  apply (Sorted_StronglySorted key_descends_transitive) in H1, H2.
  revert l2 H2. induction l1 as [| x l1 IH]; intros l2 H2 Hk.
  - destruct l2 as [| y l2]; [reflexivity |].
    specialize (Hk (key y)). unfold with_key in Hk. simpl in Hk.
    rewrite Z.eqb_refl in Hk. discriminate.
  - destruct l2 as [| y l2].
    { specialize (Hk (key x)). unfold with_key in Hk. simpl in Hk.
      rewrite Z.eqb_refl in Hk. discriminate. }
    assert (Hxy : key x = key y).
    { pose proof (head_has_largest_key x y l1 l2 H2 (Hk (key x))).
      pose proof (head_has_largest_key y x l2 l1 H1 (eq_sym (Hk (key y)))).
      lia. }
    assert (Hhead : x = y).
    { specialize (Hk (key x)). unfold with_key in Hk. simpl in Hk.
      rewrite <- Hxy, Z.eqb_refl in Hk. now injection Hk. }
    subst y. f_equal.
    inversion H1 as [| ? ? H1' _]; inversion H2 as [| ? ? H2' _]; subst.
    apply (IH H1' l2 H2'). intros k. specialize (Hk k).
    unfold with_key in *. simpl in Hk.
    destruct (key x =? k)%Z; [now injection Hk | exact Hk].
Qed.

(** Hence whatever stable algorithm an engine uses, it returns [sort]'s
    array. *)
Lemma sort_is_the_stable_arrangement (l l' : list A) :
  Sorted (key_descends key) l' ->
  (forall k, with_key key k l' = with_key key k l) ->
  l' = sort (descending key) l.
Proof.
  intros Hsorted Hstable. apply stable_arrangement_unique;
    [exact Hsorted | apply sort_sorted |].
  intros k. rewrite sort_stable. apply Hstable.
Qed.

End Keyed.

(** A relation that holds between adjacent elements satisfying [P] can be
    weakened along an array of such elements. *)
Lemma Sorted_weaken (P : A -> Prop) (R R' : A -> A -> Prop) (l : list A) :
  (forall a b, P a -> P b -> R a b -> R' a b) ->
  Forall P l -> Sorted R l -> Sorted R' l.
Proof.
  intros HRR' HP HS. induction HS as [| x l HS IH Hhd]; [constructor |].
  inversion HP as [| ? ? Hx Hl]; subst. constructor; [now apply IH |].
  destruct Hhd as [| y l Hxy]; constructor.
  inversion Hl; subst. now apply HRR'.
Qed.

End SortFacts.

(** ** The dashboard's orders *)

Section DashboardClaims.

Import JsArray Dashboard.

Lemma known_urgency_rank (r : Report) :
  known_urgency r -> exists k, rank r = Some k /\ (1 <= k <= 4)%Z.
Proof.
  intros (level & Hlevel & Hin). unfold rank. rewrite Hlevel.
  unfold URGENCY_LEVELS in Hin. simpl in Hin.
  destruct Hin as [<- | [<- | [<- | [<- | []]]]];
    eexists; (split; [vm_compute; reflexivity | lia]).
Qed.

Lemma compare_by_urgency (Date_parse : string -> option Z) (a b : Report) :
  known_urgency a -> known_urgency b ->
  compareReports Date_parse (Some "urgency_level:desc") a b
  = descending rank_key a b.
Proof.
  intros Ha Hb.
  apply known_urgency_rank in Ha as (ka & Hka & _).
  apply known_urgency_rank in Hb as (kb & Hkb & _).
  unfold compareReports, descending, rank_key. simpl.
  rewrite Hka, Hkb. reflexivity.
Qed.

Lemma compare_by_date (Date_parse : string -> option Z)
      (sortKey : option string) (a b : Report) :
  by_date sortKey ->
  time Date_parse a <> None -> time Date_parse b <> None ->
  compareReports Date_parse sortKey a b = descending (time_key Date_parse) a b.
Proof.
  intros Hkey Ha Hb. unfold compareReports, descending, time_key.
  destruct (time Date_parse a) as [ta |]; [| contradiction].
  destruct (time Date_parse b) as [tb |]; [| contradiction].
  destruct Hkey as [-> | [-> | ->]]; reflexivity.
Qed.

Lemma of_rank_with_key (k : Z) (l : list Report) :
  Forall known_urgency l -> of_rank k l = with_key rank_key k l.
Proof.
  intros Hl. unfold of_rank, with_key. apply filter_ext_in.
  intros r Hr. rewrite List.Forall_forall in Hl.
  destruct (known_urgency_rank r (Hl r Hr)) as (kr & Hkr & _).
  unfold rank_key. rewrite Hkr. reflexivity.
Qed.

(** A report with one of the four levels is shown with its own rank. *)
Lemma known_urgency_shown_rank (r : Report) :
  known_urgency r -> shown_rank r = rank_key r.
Proof.
  intros (level & Hlevel & _).
  unfold shown_rank, shown_level, rank_key, rank. rewrite Hlevel. reflexivity.
Qed.

(** C6, as stated, fails: the comparator subtracts the ranks of the two
    levels and has no rank for a report without a level, which the card
    shows as Medium.  Followed by a Critical report, such a report stays
    first: every comparison of the two is [NaN], so they compare as equal
    and a stable sort leaves them as they are ([sort_all_equal]). *)
Lemma unlevelled_report_stays_before_critical :
  ~ Stated.urgency_ranks_descend calendar_date_parse
      [ mkReport 1 None (DateString "2024-01-01");
        mkReport 2 (Some "Critical") (DateString "2024-06-01") ].
Proof.
  unfold Stated.urgency_ranks_descend.
  assert (Hsorted :
            sortedReports calendar_date_parse
              (Some [ mkReport 1 None (DateString "2024-01-01");
                      mkReport 2 (Some "Critical") (DateString "2024-06-01") ])
              (Some "urgency_level:desc")
            = [ mkReport 1 None (DateString "2024-01-01");
                mkReport 2 (Some "Critical") (DateString "2024-06-01") ])
    by (vm_compute; reflexivity).
  rewrite Hsorted. intros H.
  inversion H as [| ? ? _ Hhd]; subst.
  inversion Hhd as [| ? ? Hrel]; subst.
  vm_compute in Hrel. apply Hrel. reflexivity.
Qed.

(** C6, amended: on a collection whose reports all have one of the four
    urgency levels of the data model, the order urgency_level:desc returns
    the same reports with ranks (Critical 4, High 3, Medium 2, Low 1) that
    never increase, and the reports of each rank keep the order they had. *)
Theorem urgency_order_is_descending_and_stable
        (Date_parse : string -> option Z) (l : list Report) :
  Forall known_urgency l ->
  (urgencyOrder !! "Critical", urgencyOrder !! "High",
   urgencyOrder !! "Medium", urgencyOrder !! "Low")
  = (Some 4%Z, Some 3%Z, Some 2%Z, Some 1%Z)
  /\ Permutation l (sortedReports Date_parse (Some l) (Some "urgency_level:desc"))
  /\ most_urgent_first
       (sortedReports Date_parse (Some l) (Some "urgency_level:desc"))
  /\ (forall k,
        of_rank k (sortedReports Date_parse (Some l) (Some "urgency_level:desc"))
        = of_rank k l)
  /\ Stated.urgency_ranks_descend Date_parse l.
Proof.
  intros Hl. split; [vm_compute; reflexivity |].
  unfold Stated.urgency_ranks_descend.
  assert (Hsort : sortedReports Date_parse (Some l) (Some "urgency_level:desc")
                  = sort (descending rank_key) l).
  { unfold sortedReports. apply sort_agree. intros a b Ha Hb.
    rewrite List.Forall_forall in Hl. apply compare_by_urgency; auto. }
  rewrite Hsort.
  assert (Hknown : Forall known_urgency (sort (descending rank_key) l)).
  { rewrite List.Forall_forall in *. intros r Hr. apply Hl.
    eapply Permutation_in; [symmetry; apply sort_permutation | exact Hr]. }
  split; [apply sort_permutation |]. split.
  - unfold most_urgent_first.
    apply (Sorted_weaken known_urgency (key_descends rank_key));
      [| exact Hknown | apply sort_sorted].
    intros a b Ha Hb Hab.
    apply known_urgency_rank in Ha as (ka & Hka & _).
    apply known_urgency_rank in Hb as (kb & Hkb & _).
    unfold key_descends, rank_key in Hab. rewrite Hka, Hkb in Hab. simpl in Hab.
    exists ka, kb. auto.
  - split; [intros k; rewrite !of_rank_with_key by assumption; apply sort_stable |].
    apply (Sorted_weaken known_urgency (key_descends rank_key));
      [| exact Hknown | apply sort_sorted].
    intros a b Ha Hb Hab. unfold key_descends in Hab.
    now rewrite !known_urgency_shown_rank by assumption.
Qed.

(** Three reports, two of them of the same urgency. *)
Lemma urgency_order_is_descending_and_stable_witness :
  most_urgent_first
    (sortedReports calendar_date_parse
       (Some [ mkReport 1 (Some "Low") (DateString "2024-01-01");
               mkReport 2 (Some "Critical") (DateString "2024-06-01");
               mkReport 3 (Some "Low") (DateString "2024-03-01") ])
       (Some "urgency_level:desc")).
Proof.
  apply (urgency_order_is_descending_and_stable calendar_date_parse
           [ mkReport 1 (Some "Low") (DateString "2024-01-01");
             mkReport 2 (Some "Critical") (DateString "2024-06-01");
             mkReport 3 (Some "Low") (DateString "2024-03-01") ]).
  repeat constructor; eexists; (split; [reflexivity | simpl; auto]).
Defined.

(** C5, as stated, fails: a report without created_date followed by a dated
    one stays first under the default order, instead of last.  The
    comparator answers [NaN] on this pair, so the two compare as equal and a
    stable sort leaves them as they are ([sort_all_equal]). *)
Lemma undated_report_is_not_sorted_last :
  ~ newest_first calendar_date_parse
      (sortedReports calendar_date_parse
         (Some [ mkReport 1 (Some "Low") DateUndefined;
                 mkReport 2 (Some "Low") (DateString "2024-06-01") ])
         None).
Proof.
  assert (Hsorted :
            sortedReports calendar_date_parse
              (Some [ mkReport 1 (Some "Low") DateUndefined;
                      mkReport 2 (Some "Low") (DateString "2024-06-01") ])
              None
            = [ mkReport 1 (Some "Low") DateUndefined;
                mkReport 2 (Some "Low") (DateString "2024-06-01") ])
    by (vm_compute; reflexivity).
  rewrite Hsorted. unfold newest_first. intros H.
  inversion H as [| ? ? _ Hhd]; subst.
  inversion Hhd as [| ? ? Hrel]; subst.
  vm_compute in Hrel. exact Hrel.
Qed.

(** C5, amended: on a collection whose created_date values all denote a
    date, the default order (no sort key, or created_date:desc) returns the
    same reports with time values that never increase. *)
Theorem date_order_is_descending
        (Date_parse : string -> option Z) (sortKey : option string)
        (l : list Report) :
  by_date sortKey ->
  Forall (fun r => time Date_parse r <> None) l ->
  Permutation l (sortedReports Date_parse (Some l) sortKey)
  /\ newest_first Date_parse (sortedReports Date_parse (Some l) sortKey).
Proof.
  intros Hkey Hl.
  assert (Hsort : sortedReports Date_parse (Some l) sortKey
                  = sort (descending (time_key Date_parse)) l).
  { unfold sortedReports. apply sort_agree. intros a b Ha Hb.
    rewrite List.Forall_forall in Hl. apply compare_by_date; auto. }
  rewrite Hsort. split; [apply sort_permutation |].
  unfold newest_first.
  apply (Sorted_weaken (fun r => time Date_parse r <> None)
           (key_descends (time_key Date_parse)));
    [| | apply sort_sorted].
  - intros a b Ha Hb Hab. unfold key_descends, time_key in Hab.
    destruct (time Date_parse a); [| contradiction].
    destruct (time Date_parse b); [| contradiction].
    exact Hab.
  - rewrite List.Forall_forall in *. intros r Hr. apply Hl.
    eapply Permutation_in; [symmetry; apply sort_permutation | exact Hr].
Qed.

(** Two dated reports and one whose created_date is null. *)
Lemma date_order_is_descending_witness :
  newest_first calendar_date_parse
    (sortedReports calendar_date_parse
       (Some [ mkReport 1 (Some "Low") (DateString "2024-01-01");
               mkReport 2 (Some "Critical") (DateString "2024-06-01");
               mkReport 3 (Some "High") DateNull ])
       (Some "created_date:desc")).
Proof.
  apply (date_order_is_descending calendar_date_parse (Some "created_date:desc")
           [ mkReport 1 (Some "Low") (DateString "2024-01-01");
             mkReport 2 (Some "Critical") (DateString "2024-06-01");
             mkReport 3 (Some "High") DateNull ]).
  - right. right. reflexivity.
  - repeat constructor; vm_compute; discriminate.
Defined.

(** The scenario of the specification: the newest report is also the most
    urgent one, and both orders put it first; with a third report the two
    orders differ. *)
Example scenario_orders :
  map id (sortedReports calendar_date_parse
            (Some [ mkReport 1 (Some "Low") (DateString "2024-01-01");
                    mkReport 2 (Some "Critical") (DateString "2024-06-01") ])
            (Some "urgency_level:desc")) = [2; 1]%N
  /\ map id (sortedReports calendar_date_parse
               (Some [ mkReport 1 (Some "Low") (DateString "2024-01-01");
                       mkReport 2 (Some "Critical") (DateString "2024-06-01") ])
               None) = [2; 1]%N
  /\ map id (sortedReports calendar_date_parse
               (Some [ mkReport 1 (Some "Low") (DateString "2024-01-01");
                       mkReport 2 (Some "Critical") (DateString "2024-06-01");
                       mkReport 3 (Some "Low") (DateString "2024-09-01") ])
               (Some "urgency_level:desc")) = [2; 1; 3]%N
  /\ map id (sortedReports calendar_date_parse
               (Some [ mkReport 1 (Some "Low") (DateString "2024-01-01");
                       mkReport 2 (Some "Critical") (DateString "2024-06-01");
                       mkReport 3 (Some "Low") (DateString "2024-09-01") ])
               None) = [3; 2; 1]%N.
Proof. vm_compute. repeat split; reflexivity. Qed.

End DashboardClaims.

(** ** Rounding in binary64 *)

Section Binary64Facts.

Import Js Binary64.

Local Open Scope Z_scope.

(** A positive number lies between the two powers of two its number of
    binary digits names. *)
Lemma digits2_pos_bounds (p : positive) :
  2 ^ (Zpos (digits2_pos p) - 1) <= Zpos p < 2 ^ Zpos (digits2_pos p).
Proof.
  induction p as [p IH | p IH |]; cbn [digits2_pos].
  - rewrite Pos2Z.inj_succ, Z.pow_succ_r by lia.
    replace (Z.succ (Zpos (digits2_pos p)) - 1) with (Z.succ (Zpos (digits2_pos p) - 1)) by lia.
    rewrite Z.pow_succ_r by lia. lia.
  - rewrite Pos2Z.inj_succ, Z.pow_succ_r by lia.
    replace (Z.succ (Zpos (digits2_pos p)) - 1) with (Z.succ (Zpos (digits2_pos p) - 1)) by lia.
    rewrite Z.pow_succ_r by lia. lia.
  - simpl. lia.
Qed.

(** The number of binary digits is fixed by the two powers of two around
    the number. *)
Lemma Zdigits2_unique (m k : Z) :
  2 ^ (k - 1) <= m < 2 ^ k -> 0 < k -> Zdigits2 m = k.
Proof.
  intros [Hlo Hhi] Hk.
  assert (Hm : 0 < m) by (pose proof (Z.pow_pos_nonneg 2 (k - 1)); lia).
  destruct m as [| p | p]; try lia. cbn [Zdigits2].
  pose proof (digits2_pos_bounds p) as [Hlo' Hhi'].
  set (d := Zpos (digits2_pos p)) in *.
  destruct (Z.lt_trichotomy d k) as [Hlt | [Heq | Hgt]]; [| exact Heq |].
  - assert (2 ^ d <= 2 ^ (k - 1)) by (apply Z.pow_le_mono_r; lia). lia.
  - assert (2 ^ k <= 2 ^ (d - 1)) by (apply Z.pow_le_mono_r; lia). lia.
Qed.

Lemma half_xO (p : positive) : Z.pos p~0 / 2 = Z.pos p /\ Z.pos p~0 mod 2 = 0.
Proof. rewrite Pos2Z.inj_xO. Z.div_mod_to_equations. lia. Qed.

Lemma half_xI (p : positive) : Z.pos p~1 / 2 = Z.pos p /\ Z.pos p~1 mod 2 = 1.
Proof. rewrite Pos2Z.inj_xI. Z.div_mod_to_equations. lia. Qed.

(** One shift to the right halves the quotient and keeps the record in step
    with the remainder: it then describes the division by [2 * Qd]. *)
Lemma located_shr_1 (P Qd : Z) (mrs : shr_record) :
  0 < Qd -> 0 <= P -> located P Qd mrs -> located P (2 * Qd) (shr_1 mrs).
Proof.
  intros HQ HP (Hm & Hr & Hs).
  destruct mrs as [m r s]. cbn [shr_m shr_r shr_s] in *.
  assert (Hdiv : P / (2 * Qd) = m / 2).
  { rewrite Hm, (Z.mul_comm 2 Qd), <- Z.div_div by lia. reflexivity. }
  assert (Hmod : P mod (2 * Qd) = P mod Qd + Qd * (m mod 2)).
  { rewrite (Z.mul_comm 2 Qd), Z.rem_mul_r by lia. now rewrite Hm. }
  pose proof (Z.mod_pos_bound P Qd HQ) as Hrho.
  assert (Hm0 : 0 <= m) by (rewrite Hm; apply Z.div_pos; lia).
  assert (Hsticky : (r || s)%bool = negb (P mod Qd =? 0)).
  { rewrite Hr, Hs.
    destruct (Z.leb_spec Qd (2 * (P mod Qd))); destruct (Z.eqb_spec (P mod Qd) 0);
      destruct (Z.eqb_spec (2 * (P mod Qd)) Qd); simpl; try reflexivity; lia. }
  assert (Hhalf : exists h b, m / 2 = h /\ m mod 2 = b
                              /\ shr_1 {| shr_m := m; shr_r := r; shr_s := s |}
                                 = {| shr_m := h; shr_r := (b =? 1);
                                      shr_s := (r || s)%bool |}
                              /\ (b = 0 \/ b = 1)).
  { destruct m as [| [p | p |] | p]; [| | | | exfalso; lia].
    - exists 0, 0. auto.
    - exists (Z.pos p), 1. destruct (half_xI p). auto.
    - exists (Z.pos p), 0. destruct (half_xO p). auto.
    - exists 0, 1. auto. }
  destruct Hhalf as (h & b & Hh & Hb & -> & Hbit).
  rewrite Hh in Hdiv. rewrite Hb in Hmod.
  unfold located. cbn [shr_m shr_r shr_s]. rewrite Hsticky, Hdiv, Hmod.
  split; [reflexivity |].
  destruct Hbit as [-> | ->]; split;
    repeat match goal with
           | |- context [Z.leb ?x ?y] => destruct (Z.leb_spec x y)
           | |- context [Z.eqb ?x ?y] => destruct (Z.eqb_spec x y)
           end; simpl; try reflexivity; lia.
Qed.

Lemma pow2_xI (p : positive) : 2 ^ Z.pos p~1 = 2 * 2 ^ Z.pos p * 2 ^ Z.pos p.
Proof.
  replace (Z.pos p~1) with (Z.pos p + Z.pos p + 1) by lia.
  rewrite Z.pow_add_r by lia. rewrite Z.pow_add_r by lia. rewrite Z.pow_1_r. ring.
Qed.

Lemma pow2_xO (p : positive) : 2 ^ Z.pos p~0 = 2 ^ Z.pos p * 2 ^ Z.pos p.
Proof.
  replace (Z.pos p~0) with (Z.pos p + Z.pos p) by lia.
  now rewrite Z.pow_add_r by lia.
Qed.

(** The same after any number of shifts. *)
Lemma located_iter_shr_1 (p : positive) :
  forall (P Qd : Z) (mrs : shr_record),
    0 < Qd -> 0 <= P -> located P Qd mrs ->
    located P (Qd * 2 ^ Z.pos p) (SpecFloat.iter_pos shr_1 p mrs).
Proof.
  induction p as [p IH | p IH |]; intros P Qd mrs HQ HP Hloc;
    cbn [SpecFloat.iter_pos].
  - pose proof (Z.pow_pos_nonneg 2 (Z.pos p) ltac:(lia) ltac:(lia)) as Hpow.
    apply located_shr_1 in Hloc; [| lia | lia].
    apply IH in Hloc; [| lia | lia].
    apply IH in Hloc; [| nia | lia].
    rewrite pow2_xI.
    replace (Qd * (2 * 2 ^ Z.pos p * 2 ^ Z.pos p))
      with (2 * Qd * 2 ^ Z.pos p * 2 ^ Z.pos p) by ring.
    exact Hloc.
  - pose proof (Z.pow_pos_nonneg 2 (Z.pos p) ltac:(lia) ltac:(lia)) as Hpow.
    apply IH in Hloc; [| lia | lia].
    apply IH in Hloc; [| nia | lia].
    rewrite pow2_xO.
    replace (Qd * (2 ^ Z.pos p * 2 ^ Z.pos p))
      with (Qd * 2 ^ Z.pos p * 2 ^ Z.pos p) by ring.
    exact Hloc.
  - replace (Qd * 2 ^ 1) with (2 * Qd) by (rewrite Z.pow_1_r; lia).
    now apply located_shr_1.
Qed.

Lemma shr_m_of_loc (m : Z) (l : location) : shr_m (shr_record_of_loc m l) = m.
Proof. destruct l as [| []]; reflexivity. Qed.

(** [shr] by [n] places describes the division by [Qd * 2^n]. *)
Lemma shr_located (P Qd e n : Z) (mrs : shr_record) :
  0 < Qd -> 0 <= P -> 0 <= n -> located P Qd mrs ->
  exists mrs', shr mrs e n = (mrs', e + n) /\ located P (Qd * 2 ^ n) mrs'.
Proof.
  intros HQ HP Hn Hloc. destruct n as [| p | p]; [| | lia].
  - exists mrs. cbn [shr]. rewrite Z.add_0_r, Z.pow_0_r, Z.mul_1_r. auto.
  - eexists. cbn [shr]. split; [reflexivity |].
    now apply located_iter_shr_1.
Qed.

(** Rounding to nearest, ties to even, moves to a multiple of [Q] at most
    half of [Q] away. *)
Lemma round_nearest_even_near (P Q : Z) (mrs : shr_record) :
  0 < Q -> 0 <= P -> located P Q mrs ->
  shr_m mrs <= round_nearest_even (shr_m mrs) (loc_of_shr_record mrs)
            <= shr_m mrs + 1
  /\ 2 * Z.abs (round_nearest_even (shr_m mrs) (loc_of_shr_record mrs) * Q - P) <= Q
  /\ shr_m mrs * Q <= P.
Proof.
  intros HQ HP (Hm & Hr & Hs). destruct mrs as [m r s].
  cbn [shr_m shr_r shr_s] in *.
  pose proof (Z.div_mod P Q ltac:(lia)) as Hdm.
  pose proof (Z.mod_pos_bound P Q HQ) as Hrho.
  rewrite <- Hm in Hdm. set (rho := P mod Q) in *.
  destruct (Z.leb_spec Q (2 * rho)); destruct (Z.eqb_spec rho 0);
    destruct (Z.eqb_spec (2 * rho) Q); subst r s; cbn;
    try destruct (Z.even m); lia.
Qed.

(** The rounding step of every operation: given the quotient [P / Qd] with at
    least 53 digits and an exponent in range, the result is a finite number
    with a full mantissa that differs from the exact quotient by at most one
    part in [2^53]. *)
Lemma binary_round_aux_near (sx : bool) (P Qd mx ex : Z) (lx : location) :
  0 < Qd -> 0 <= P ->
  located P Qd (shr_record_of_loc mx lx) ->
  2 ^ 52 <= mx -> -1074 <= ex -> ex + Zdigits2 mx <= 1000 ->
  exists m e,
    binary_round_aux 53 1024 sx mx ex lx = S754_finite sx m e
    /\ 2 ^ 52 <= Z.pos m < 2 ^ 53
    /\ ex <= e <= ex + Zdigits2 mx - 52
    /\ 2 ^ 53 * Z.abs (Z.pos m * 2 ^ (e - ex) * Qd - P) <= P.
Proof.
  intros HQ HP Hloc Hmx Hex Hrange.
  assert (Hmx0 : 0 < mx) by (pose proof (Z.pow_pos_nonneg 2 52); lia).
  destruct mx as [| p | p]; try lia.
  pose proof (digits2_pos_bounds p) as [Hlo Hhi].
  cbn [Zdigits2] in Hrange |- *. set (d := Z.pos (digits2_pos p)) in *.
  assert (Hd : 53 <= d).
  { destruct (Z.le_gt_cases 53 d) as [H | H]; [exact H |].
    assert (2 ^ d <= 2 ^ 52) by (apply Z.pow_le_mono_r; lia). lia. }
  set (n := d - 53).
  assert (Hpn : 0 < 2 ^ n) by (apply Z.pow_pos_nonneg; lia).
  assert (Hsplit_lo : 2 ^ (d - 1) = 2 ^ n * 2 ^ 52).
  { rewrite <- Z.pow_add_r by lia. f_equal. lia. }
  assert (Hsplit_hi : 2 ^ d = 2 ^ n * 2 ^ 53).
  { rewrite <- Z.pow_add_r by lia. f_equal. lia. }
  unfold binary_round_aux, shr_fexp. cbn [Zdigits2]. fold d.
  assert (Hshift : fexp 53 1024 (d + ex) - ex = n).
  { unfold fexp, emin. lia. }
  rewrite Hshift.
  destruct (shr_located P Qd ex n _ HQ HP ltac:(lia) Hloc) as (mrs1 & -> & Hloc1).
  set (Q1 := Qd * 2 ^ n) in *.
  assert (HQ1 : 0 < Q1) by (unfold Q1; nia).
  destruct (round_nearest_even_near P Q1 mrs1 HQ1 HP Hloc1) as (Hround & Hnear & Hfloor).
  set (mr := round_nearest_even (shr_m mrs1) (loc_of_shr_record mrs1)) in *.
  assert (Hm1 : 2 ^ 52 <= shr_m mrs1 < 2 ^ 53).
  { destruct Hloc1 as (Hm1 & _). rewrite Hm1. unfold Q1.
    rewrite <- Z.div_div by lia.
    destruct Hloc as (Hm & _). rewrite shr_m_of_loc in Hm. rewrite <- Hm.
    split.
    - apply Z.div_le_lower_bound; lia.
    - apply Z.div_lt_upper_bound; lia. }
  assert (Hbig : 2 ^ 52 * Q1 <= P) by nia.
  destruct (Z.eq_dec mr (2 ^ 53)) as [Htop | Htop].
  - rewrite Htop.
    exists (Z.to_pos (2 ^ 52)), (ex + n + 1).
    split; [| split; [| split]].
    + vm_compute (Zdigits2 (2 ^ 53)).
      replace (fexp 53 1024 (54 + (ex + n)) - (ex + n)) with 1
        by (unfold fexp, emin; lia).
      cbn [shr shr_record_of_loc SpecFloat.iter_pos].
      vm_compute (shr_1 _). cbn [shr_m].
      replace (ex + n + 1 <=? 1024 - 53) with true
        by (symmetry; apply Z.leb_le; lia).
      reflexivity.
    + vm_compute. split; [discriminate | reflexivity].
    + lia.
    + replace (ex + n + 1 - ex) with (n + 1) by lia.
      rewrite Z.pow_add_r, Z.pow_1_r by lia.
      replace (Z.pos (Z.to_pos (2 ^ 52)) * (2 ^ n * 2) * Qd) with (mr * Q1)
        by (rewrite Htop; unfold Q1; vm_compute (Z.pos (Z.to_pos (2 ^ 52)));
            vm_compute (2 ^ 53); ring).
      lia.
  - assert (Hmr : 2 ^ 52 <= mr < 2 ^ 53) by lia.
    assert (Hdigits : Zdigits2 mr = 53)
      by (apply Zdigits2_unique; [exact Hmr | lia]).
    rewrite Hdigits.
    replace (fexp 53 1024 (53 + (ex + n)) - (ex + n)) with 0
      by (unfold fexp, emin; lia).
    cbn [shr shr_record_of_loc shr_m].
    destruct mr as [| q | q] eqn:Hq; try lia.
    exists q, (ex + n).
    split; [| split; [| split]].
    + replace (ex + n <=? 1024 - 53) with true
        by (symmetry; apply Z.leb_le; lia).
      reflexivity.
    + exact Hmr.
    + lia.
    + replace (ex + n - ex) with n by lia.
      replace (Z.pos q * 2 ^ n * Qd) with (Z.pos q * Q1) by (unfold Q1; ring).
      lia.
Qed.

Lemma located_exact (m : Z) : located m 1 (shr_record_of_loc m loc_Exact).
Proof.
  unfold located. cbn [shr_record_of_loc shr_m shr_r shr_s].
  rewrite Z.div_1_r, Z.mod_1_r. repeat split.
Qed.

(** The location [SFdiv] computes for a remainder is the one of the
    division. *)
Lemma located_new_location (P Qd : Z) :
  0 < Qd -> 0 <= P ->
  located P Qd (shr_record_of_loc (P / Qd) (new_location Qd (P mod Qd))).
Proof.
  intros HQ HP. pose proof (Z.mod_pos_bound P Qd HQ) as Hrho.
  set (rho := P mod Qd) in *.
  unfold located. rewrite shr_m_of_loc. split; [reflexivity |].
  fold rho. unfold new_location, new_location_even, new_location_odd.
  destruct (Z.even Qd) eqn:Hparity.
  - destruct (Z.eqb_spec rho 0) as [Hz | Hne];
      [| destruct (Z.compare_spec (2 * rho) Qd)];
      cbn [shr_record_of_loc shr_r shr_s negb andb];
      destruct (Z.leb_spec Qd (2 * rho)); destruct (Z.eqb_spec (2 * rho) Qd);
      try lia; auto.
  - assert (Hodd : Z.odd Qd = true) by (rewrite <- Z.negb_even, Hparity; reflexivity).
    apply Z.odd_spec in Hodd as [h Hh].
    destruct (Z.eqb_spec rho 0) as [Hz | Hne];
      [| destruct (Z.compare_spec (2 * rho + 1) Qd)];
      cbn [shr_record_of_loc shr_r shr_s negb andb];
      destruct (Z.leb_spec Qd (2 * rho)); destruct (Z.eqb_spec (2 * rho) Qd);
      try lia; auto.
Qed.

Lemma iter_xO (p : positive) (x : positive) :
  Z.pos (Pos.iter xO x p) = Z.pos x * 2 ^ Z.pos p.
Proof.
  induction p as [| p IH] using Pos.peano_ind.
  - cbn [Pos.iter]. rewrite Z.pow_1_r. lia.
  - rewrite Pos.iter_succ, Pos2Z.inj_succ, Z.pow_succ_r by lia.
    rewrite Pos2Z.inj_xO, IH. ring.
Qed.

(** A positive integer below [2^53] is a number: the conversion is exact. *)
Lemma of_Z_exact (n : Z) :
  0 < n < 2 ^ 53 ->
  exists m a,
    of_Z n = S754_finite false m (- a)
    /\ 2 ^ 52 <= Z.pos m < 2 ^ 53
    /\ 0 <= a <= 52
    /\ Z.pos m = n * 2 ^ a.
Proof.
  intros [Hpos Hlt]. destruct n as [| p | p]; try lia.
  unfold of_Z, binary_normalize, binary_round, shl_align.
  pose proof (digits2_pos_bounds p) as [Hlo Hhi].
  set (d := Z.pos (digits2_pos p)) in *.
  assert (Hd : 1 <= d <= 53).
  { split; [unfold d; lia |].
    destruct (Z.le_gt_cases d 53) as [H | H]; [exact H |].
    assert (2 ^ 53 <= 2 ^ (d - 1)) by (apply Z.pow_le_mono_r; lia). lia. }
  replace (fexp prec emax (d + 0)) with (d - 53)
    by (unfold fexp, emin, prec, emax; lia).
  set (a := 53 - d).
  assert (Hscaled : exists mz, 
             (match d - 53 - 0 with
              | Z.neg s => (Pos.iter xO p s, d - 53)
              | _ => (p, 0)
              end) = (mz, - a)
             /\ Z.pos mz = Z.pos p * 2 ^ a).
  { destruct (d - 53 - 0) as [| s | s] eqn:Hs; try lia.
    - exists p. replace a with 0 by lia. split; [reflexivity | lia].
    - exists (Pos.iter xO p s). split; [f_equal; lia |].
      rewrite iter_xO. f_equal. f_equal. lia. }
  destruct Hscaled as (mz & -> & Hmz).
  assert (Hpa : 0 < 2 ^ a) by (apply Z.pow_pos_nonneg; lia).
  assert (Hmz_lo : 2 ^ 52 <= Z.pos mz).
  { rewrite Hmz. replace 52 with (d - 1 + a) by lia.
    rewrite Z.pow_add_r by lia. nia. }
  assert (Hmz_hi : Z.pos mz < 2 ^ 53).
  { rewrite Hmz. replace 53 with (d + a) by lia.
    rewrite Z.pow_add_r by lia. nia. }
  assert (Hdigits : Zdigits2 (Z.pos mz) = 53)
    by (apply Zdigits2_unique; lia).
  destruct (binary_round_aux_near false (Z.pos mz) 1 (Z.pos mz) (- a) loc_Exact)
    as (m & e & Hround & Hm & He & Hnear);
    [lia | lia | apply located_exact | lia | lia | rewrite Hdigits; lia |].
  rewrite Hdigits in He.
  assert (He' : e = - a).
  { destruct (Z.eq_dec e (- a)) as [H | H]; [exact H |].
    replace (e - - a) with 1 in Hnear by lia.
    rewrite Z.pow_1_r in Hnear. lia. }
  subst e. replace (- a - - a) with 0 in Hnear by lia.
  rewrite Z.pow_0_r in Hnear.
  exists m, a. unfold prec, emax. rewrite Hround.
  repeat split; try lia.
Qed.

Lemma Zdigits2_le (m k : Z) : 0 <= k -> 0 < m < 2 ^ k -> Zdigits2 m <= k.
Proof.
  intros Hk [Hpos Hlt]. destruct m as [| p | p]; try lia.
  pose proof (digits2_pos_bounds p) as [Hlo _]. cbn [Zdigits2].
  set (d := Z.pos (digits2_pos p)) in *.
  destruct (Z.le_gt_cases d k) as [H | H]; [exact H |].
  assert (2 ^ k <= 2 ^ (d - 1)) by (apply Z.pow_le_mono_r; lia). lia.
Qed.

(** The quotient of two numbers with full mantissas is within one part in
    [2^53] of the exact quotient. *)
Lemma div_near (m1 m2 : positive) (e1 e2 : Z) :
  2 ^ 52 <= Z.pos m1 < 2 ^ 53 -> 2 ^ 52 <= Z.pos m2 < 2 ^ 53 ->
  -52 <= e1 <= 0 -> -52 <= e2 <= 0 ->
  exists my ey k,
    div (S754_finite false m1 e1) (S754_finite false m2 e2)
    = S754_finite false my ey
    /\ 2 ^ 52 <= Z.pos my < 2 ^ 53
    /\ ey = e1 - e2 - 53 + k /\ 0 <= k <= 2
    /\ 2 ^ 53 * Z.abs (Z.pos my * 2 ^ k * Z.pos m2 - Z.pos m1 * 2 ^ 53)
       <= Z.pos m1 * 2 ^ 53.
Proof.
  intros Hm1 Hm2 He1 He2.
  unfold div, SFdiv, SFdiv_core_binary. cbv zeta.
  rewrite (Zdigits2_unique (Z.pos m1) 53), (Zdigits2_unique (Z.pos m2) 53) by lia.
  replace (Z.min (fexp prec emax (53 + e1 - (53 + e2))) (e1 - e2))
    with (e1 - e2 - 53) by (unfold fexp, emin, prec, emax; lia).
  replace (e1 - e2 - (e1 - e2 - 53)) with 53 by lia.
  cbv iota. rewrite Z.shiftl_mul_pow2 by lia.
  set (P := Z.pos m1 * 2 ^ 53).
  destruct (Z.div_eucl P (Z.pos m2)) as [q rho] eqn:Heucl.
  assert (Hq : q = P / Z.pos m2) by (unfold Z.div; now rewrite Heucl).
  assert (Hrho : rho = P mod Z.pos m2) by (unfold Z.modulo; now rewrite Heucl).
  assert (HP : 0 <= P) by (unfold P; lia).
  assert (Hq_lo : 2 ^ 52 <= q).
  { rewrite Hq. apply Z.div_le_lower_bound; [lia |]. unfold P. lia. }
  assert (Hq_hi : q < 2 ^ 54).
  { rewrite Hq. apply Z.div_lt_upper_bound; [lia |]. unfold P. lia. }
  pose proof (Zdigits2_le q 54 ltac:(lia) ltac:(lia)) as Hdq.
  destruct (binary_round_aux_near (xorb false false) P (Z.pos m2) q
              (e1 - e2 - 53) (new_location (Z.pos m2) rho))
    as (my & ey & Hround & Hmy & Hey & Hnear); try lia.
  { rewrite Hq, Hrho. apply located_new_location; lia. }
  exists my, ey, (ey - (e1 - e2 - 53)).
  unfold prec, emax. rewrite Hround.
  repeat split; lia.
Qed.

(** The product with 100 is within one part in [2^53] of the exact product. *)
Lemma mul_100_near (my : positive) (ey : Z) :
  2 ^ 52 <= Z.pos my < 2 ^ 53 -> -200 <= ey <= 200 ->
  exists mz ez j,
    mul (S754_finite false my ey) (of_Z 100) = S754_finite false mz ez
    /\ 2 ^ 52 <= Z.pos mz < 2 ^ 53
    /\ ez = ey - 46 + j /\ 0 <= j
    /\ 2 ^ 53 * Z.abs (Z.pos mz * 2 ^ j - Z.pos my * (100 * 2 ^ 46))
       <= Z.pos my * (100 * 2 ^ 46).
Proof.
  intros Hmy Hey.
  assert (H100 : of_Z 100 = S754_finite false 7036874417766400 (-46))
    by (vm_compute; reflexivity).
  rewrite H100. unfold mul, SFmul.
  set (P := Z.pos (my * 7036874417766400)).
  assert (HP : P = Z.pos my * (100 * 2 ^ 46)).
  { unfold P. rewrite Pos2Z.inj_mul. reflexivity. }
  assert (Hrange : 2 ^ 52 <= P < 2 ^ 106) by (rewrite HP; lia).
  pose proof (Zdigits2_le P 106 ltac:(lia) ltac:(lia)) as Hdigits.
  destruct (binary_round_aux_near (xorb false false) P 1 P (ey + -46) loc_Exact)
    as (mz & ez & Hround & Hmz & Hez & Hnear); try lia.
  { apply located_exact. }
  exists mz, ez, (ez - (ey + -46)).
  unfold prec, emax. rewrite Hround.
  rewrite Z.mul_1_r, HP in Hnear.
  repeat split; lia.
Qed.

(** With a negative exponent, [scaled_round 1] is the number of tenths
    nearest to the number, the larger one on a tie. *)
Lemma scaled_round_tenths (m : positive) (a : Z) :
  0 < a ->
  2 * Analytics.scaled_round 1 m (- a) * 2 ^ a
  <= 20 * Z.pos m + 2 ^ a
  < 2 * (Analytics.scaled_round 1 m (- a) + 1) * 2 ^ a.
Proof.
  intros Ha. unfold Analytics.scaled_round.
  destruct (Z.leb_spec 0 (- a)); [lia |].
  replace (- - a) with a by lia.
  change (10 ^ Z.of_nat 1) with 10.
  assert (Hpa : 0 < 2 ^ a) by (apply Z.pow_pos_nonneg; lia).
  rewrite Z.pow_add_r, Z.pow_1_r by lia.
  pose proof (Z.div_mod (2 * (Z.pos m * 10) + 2 ^ a) (2 ^ a * 2) ltac:(lia)) as Hdm.
  pose proof (Z.mod_pos_bound (2 * (Z.pos m * 10) + 2 ^ a) (2 ^ a * 2) ltac:(lia)) as Hrem.
  set (t := (2 * (Z.pos m * 10) + 2 ^ a) / (2 ^ a * 2)) in *.
  set (A := 2 ^ a) in *. lia.
Qed.

(** The arithmetic of the three roundings: two relative errors of one part in
    [2^53] cannot move ten times the product across the gap of [1 / (2 n)]
    that separates the exact share from the nearest half tenth it is not
    on, as long as [n] is at most [2^41]. *)
Lemma tenth_is_nearest (n r t my mz K J A C : Z) :
  0 < r <= n -> n <= 2 ^ 41 ->
  0 < C -> 0 < K -> 0 < J -> 0 < A ->
  A * J * K = 2 ^ 46 * C ->
  2 ^ 53 * Z.abs (my * K * n - r * C) <= r * C ->
  2 ^ 53 * Z.abs (mz * J - my * (100 * 2 ^ 46)) <= my * (100 * 2 ^ 46) ->
  2 * t * A <= 20 * mz + A < 2 * (t + 1) * A ->
  2 * Z.abs (t * n - 1000 * r) <= n.
Proof.
  intros Hr Hn HC HK HJ HA Hrel HD HM HT.
  set (c := K * n). assert (Hc : 0 < c) by (unfold c; nia).
  assert (HM' : 2 ^ 53 * Z.abs (mz * J * c - my * c * (100 * 2 ^ 46))
                <= my * c * (100 * 2 ^ 46)).
  { replace (mz * J * c - my * c * (100 * 2 ^ 46))
      with ((mz * J - my * (100 * 2 ^ 46)) * c) by ring.
    rewrite Z.abs_mul, (Z.abs_eq c) by lia.
    replace (my * c * (100 * 2 ^ 46)) with (my * (100 * 2 ^ 46) * c) by ring.
    rewrite Z.mul_assoc. apply Z.mul_le_mono_nonneg_r; lia. }
  set (g := J * c). assert (Hg : 0 < g) by (unfold g; nia).
  assert (HT1 : 2 * t * A * g <= (20 * mz + A) * g)
    by (apply Z.mul_le_mono_nonneg_r; lia).
  assert (HT2 : (20 * mz + A) * g < 2 * (t + 1) * A * g)
    by (apply Z.mul_lt_mono_pos_r; lia).
  assert (HAg : A * g = 2 ^ 46 * (C * n)).
  { unfold g, c. replace (A * (J * (K * n))) with (A * J * K * n) by ring.
    rewrite Hrel. ring. }
  assert (HW : r * C <= C * n) by nia.
  assert (HCn : C * n <= 2 ^ 41 * C) by nia.
  replace (2 * t * A * g) with (2 * (t * (A * g))) in HT1 by ring.
  replace ((20 * mz + A) * g) with (20 * (mz * J * c) + A * g) in HT1, HT2
    by (unfold g; ring).
  replace (2 * (t + 1) * A * g) with (2 * (t * (A * g)) + 2 * (A * g)) in HT2 by ring.
  rewrite HAg in HT1, HT2.
  replace (t * (2 ^ 46 * (C * n))) with (2 ^ 46 * (t * n * C)) in HT1, HT2 by ring.
  replace (my * K * n) with (my * c) in HD by (unfold c; ring).
  destruct (Z.le_gt_cases (2 * Z.abs (t * n - 1000 * r)) n) as [H | H]; [exact H |].
  exfalso.
  assert (Hfar : C <= (2 * (t * n - 1000 * r) - n) * C
                 \/ C <= (- (2 * (t * n - 1000 * r)) - n) * C).
  { destruct (Z.le_gt_cases 0 (t * n - 1000 * r)).
    - left. rewrite <- (Z.mul_1_l C) at 1. apply Z.mul_le_mono_nonneg_r; lia.
    - right. rewrite <- (Z.mul_1_l C) at 1. apply Z.mul_le_mono_nonneg_r; lia. }
  set (X := mz * J * c) in *. set (U := my * c) in *.
  set (W := r * C) in *. set (Cn := C * n) in *.
  assert (HTn : (2 * (t * n - 1000 * r) - n) * C = 2 * (t * n * C) - 2000 * W - Cn)
    by (unfold W, Cn; ring).
  assert (HTn' : (- (2 * (t * n - 1000 * r)) - n) * C
                 = - (2 * (t * n * C)) + 2000 * W - Cn)
    by (unfold W, Cn; ring).
  rewrite HTn, HTn' in Hfar.
  set (Tn := t * n * C) in *.
  lia.
Qed.

Lemma or_zero_of_N (r : N) :
  (Z.of_N r < 2 ^ 53) -> Analytics.or_zero (Some (of_N r)) = of_N r.
Proof.
  intros Hr. destruct (N.eq_dec r 0%N) as [-> | Hpos]; [reflexivity |].
  destruct (of_Z_exact (Z.of_N r) ltac:(lia)) as (m & a & Hm & _).
  unfold of_N. rewrite Hm. reflexivity.
Qed.

(** The completion rate of [counts n r] is the formatted product. *)
Lemma completionRate_counts (n r : N) :
  (0 < n)%N -> Z.of_N n < 2 ^ 53 -> Z.of_N r < 2 ^ 53 ->
  Analytics.completionRate (Analytics.counts n r)
  = Analytics.Text <$> Analytics.toFixed 1 (mul (div (of_N r) (of_N n)) (of_Z 100)).
Proof.
  intros Hpos Hn Hr.
  unfold Analytics.completionRate, Analytics.totalReports,
    Analytics.resolvedCount, Analytics.count, Analytics.counts.
  cbn [Analytics.total Analytics.by_status].
  rewrite lookup_insert_eq, !or_zero_of_N by assumption.
  destruct (of_Z_exact (Z.of_N n) ltac:(lia)) as (m & a & Hm & _).
  unfold of_N at 1. rewrite Hm. reflexivity.
Qed.

(** For every total up to two million million, the decimal shown is within
    half a tenth of the exact share [100 * r / n]. *)
Lemma completion_rate_near (n r : N) :
  (0 < n <= 2 * 10 ^ 12)%N -> (r <= n)%N ->
  exists t : N,
    Analytics.completionRate (Analytics.counts n r)
    = Some (Analytics.Text (Analytics.tenths t))
    /\ 2 * Z.abs (Z.of_N t * Z.of_N n - 1000 * Z.of_N r) <= Z.of_N n.
Proof.
  intros [Hpos Hbound] Hr.
  assert (Hn41 : Z.of_N n <= 2 ^ 41).
  { apply N2Z.inj_le in Hbound. change (Z.of_N (2 * 10 ^ 12)) with 2000000000000 in Hbound.
    lia. }
  rewrite completionRate_counts by lia.
  destruct (of_Z_exact (Z.of_N n) ltac:(lia)) as (m2 & a2 & Hn & Hm2 & Ha2 & Hm2n).
  destruct (N.eq_dec r 0%N) as [-> | Hrpos].
  { exists 0%N. unfold of_N. rewrite Hn. split; [reflexivity | lia]. }
  destruct (of_Z_exact (Z.of_N r) ltac:(lia)) as (m1 & a1 & Hr1 & Hm1 & Ha1 & Hm1r).
  unfold of_N. rewrite Hn, Hr1.
  destruct (div_near m1 m2 (- a1) (- a2) Hm1 Hm2 ltac:(lia) ltac:(lia))
    as (my & ey & k & -> & Hmy & Hey & Hk & HD).
  destruct (mul_100_near my ey Hmy ltac:(lia))
    as (mz & ez & j & -> & Hmz & Hez & Hj & HM).
  set (nz := Z.of_N n) in *. set (rz := Z.of_N r) in *.
  assert (Hrz : 0 < rz <= nz) by (unfold rz, nz; lia).
  assert (HE1 : 0 < 2 ^ a1) by (apply Z.pow_pos_nonneg; lia).
  assert (HK : 0 < 2 ^ (k + a2)) by (apply Z.pow_pos_nonneg; lia).
  assert (HJ : 0 < 2 ^ j) by (apply Z.pow_pos_nonneg; lia).
  assert (HD' : 2 ^ 53 * Z.abs (Z.pos my * 2 ^ (k + a2) * nz - rz * 2 ^ (a1 + 53))
                <= rz * 2 ^ (a1 + 53)).
  { rewrite Hm2n, Hm1r in HD. rewrite !Z.pow_add_r by lia.
    replace (Z.pos my * (2 ^ k * 2 ^ a2) * nz) with (Z.pos my * 2 ^ k * (nz * 2 ^ a2))
      by ring.
    replace (rz * (2 ^ a1 * 2 ^ 53)) with (rz * 2 ^ a1 * 2 ^ 53) by ring.
    exact HD. }
  assert (Hka : k + a2 <= a1 + 1).
  { destruct (Z.le_gt_cases (k + a2) (a1 + 1)) as [H | H]; [exact H |].
    exfalso.
    assert (Hpow : 2 ^ (a1 + 2) <= 2 ^ (k + a2)) by (apply Z.pow_le_mono_r; lia).
    rewrite (Z.pow_add_r 2 a1 2) in Hpow by lia.
    rewrite (Z.pow_add_r 2 a1 53) in HD' by lia.
    set (E1 := 2 ^ a1) in *. set (K := 2 ^ (k + a2)) in *.
    assert (HV : 0 < K * nz) by (apply Z.mul_pos_pos; lia).
    assert (H1 : 2 ^ 52 * (K * nz) <= Z.pos my * K * nz).
    { rewrite <- (Z.mul_assoc (Z.pos my)). apply Z.mul_le_mono_nonneg_r; lia. }
    assert (H2 : E1 * 2 ^ 2 * nz <= K * nz)
      by (apply Z.mul_le_mono_nonneg_r; lia).
    assert (H3 : rz * E1 <= nz * E1) by (apply Z.mul_le_mono_nonneg_r; lia).
    assert (H4 : 0 < nz * E1) by (apply Z.mul_pos_pos; lia).
    replace (rz * (E1 * 2 ^ 53)) with (2 ^ 53 * (rz * E1)) in HD' by ring.
    replace (E1 * 2 ^ 2 * nz) with (4 * (nz * E1)) in H2 by ring.
    set (U := Z.pos my * K * nz) in *. set (V := K * nz) in *.
    set (W := rz * E1) in *. set (N1 := nz * E1) in *.
    lia. }
  assert (Hj54 : j <= 54).
  { destruct (Z.le_gt_cases j 54) as [H | H]; [exact H |].
    exfalso.
    assert (Hpow : 2 ^ 55 <= 2 ^ j) by (apply Z.pow_le_mono_r; lia).
    set (J := 2 ^ j) in *.
    assert (H1 : 2 ^ 52 * 2 ^ 55 <= Z.pos mz * J)
      by (apply Z.mul_le_mono_nonneg; lia).
    set (X := Z.pos mz * J) in *. lia. }
  set (a := - ez). assert (Ha : 0 < a) by (unfold a; lia).
  replace ez with (- a) by (unfold a; lia).
  assert (HA : 0 < 2 ^ a) by (apply Z.pow_pos_nonneg; lia).
  pose proof (scaled_round_tenths mz a Ha) as HT.
  unfold Analytics.toFixed.
  assert (Hsmall : Analytics.at_least_1e21 mz (- a) = false).
  { unfold Analytics.at_least_1e21.
    destruct (Z.leb_spec 0 (- a)); [lia |].
    apply Z.leb_gt. replace (- - a) with a by lia.
    assert (10 ^ 21 * 1 <= 10 ^ 21 * 2 ^ a)
      by (apply Z.mul_le_mono_nonneg_l; lia).
    lia. }
  rewrite Hsmall.
  set (t := Analytics.scaled_round 1 mz (- a)) in *.
  assert (Ht : 0 <= t).
  { destruct (Z.le_gt_cases 0 t) as [H | H]; [exact H |].
    assert ((t + 1) * 2 ^ a <= 0) by (apply Z.mul_nonpos_nonneg; lia).
    lia. }
  exists (Z.to_N t). unfold Analytics.tenths. rewrite !Z2N.id by exact Ht.
  split; [reflexivity |].
  assert (HC : 0 < 2 ^ (a1 + 53)) by (apply Z.pow_pos_nonneg; lia).
  assert (Hrel : 2 ^ a * 2 ^ j * 2 ^ (k + a2) = 2 ^ 46 * 2 ^ (a1 + 53)).
  { rewrite <- !Z.pow_add_r by lia. f_equal. unfold a. lia. }
  apply (tenth_is_nearest nz rz t (Z.pos my) (Z.pos mz)
           (2 ^ (k + a2)) (2 ^ j) (2 ^ a) (2 ^ (a1 + 53)));
    assumption.
Qed.

End Binary64Facts.

(** ** The completion rate *)

Section AnalyticsClaims.

Import Js Analytics.

(** C8, as stated, fails: the rate is formatted from the binary64 product,
    not from the exact share.  For 4802866869766 resolved reports out of
    6241542390859 the exact share is 76.94999999999999..., whose nearest
    tenth is 76.9; the quotient and the product are each rounded upwards,
    the binary64 product lies just above 76.95, and "77.0" is shown. *)
Lemma large_total_shows_a_farther_tenth :
  ~ Stated.shows_rounded_share 6241542390859 4802866869766.
Proof.
  intros (t & Hshown & Hnear).
  assert (Ht : t = 769%N) by lia.
  subst t. vm_compute in Hshown. discriminate.
Qed.

(** C8, amended: the completion rate is the number 0 whenever the total is
    absent or zero.  For 3 resolved reports out of 10 it is the string
    "30.0".  For every total up to two million million, with no more
    resolved reports than the total, the decimal shown is within half a
    tenth of the exact share [100 * resolved / total]; when the share lies
    exactly between two tenths the binary64 product decides, and either one
    can be shown: 1 out of 16 (6.25) shows "6.3", 23 out of 80 (28.75)
    shows "28.7". *)
Theorem completion_rate_is_nearest_tenth :
  (forall stats : Stats,
      total stats = None \/ total stats = Some (of_N 0) ->
      completionRate stats = Some (Number (of_Z 0)))
  /\ completionRate (counts 10 3) = Some (Text "30.0")
  /\ (forall n r : N,
        (0 < n <= 2 * 10 ^ 12)%N -> (r <= n)%N ->
        Stated.shows_rounded_share n r)
  /\ completionRate (counts 16 1) = Some (Text "6.3")
  /\ completionRate (counts 80 23) = Some (Text "28.7").
Proof.
  split; [| split; [| split; [| split]]].
  - intros [n bs] [Htotal | Htotal]; simpl in Htotal; subst n; reflexivity.
  - vm_compute. reflexivity.
  - intros n r Hn Hr. apply completion_rate_near; assumption.
  - vm_compute. reflexivity.
  - vm_compute. reflexivity.
Qed.

(** No reports at all, and 999999999999 resolved reports out of a million
    million. *)
Lemma completion_rate_is_nearest_tenth_witness :
  completionRate {| total := Some (of_N 0); by_status := None |}
  = Some (Number (of_Z 0))
  /\ Stated.shows_rounded_share 1000000000000 999999999999.
Proof.
  destruct completion_rate_is_nearest_tenth as (Hzero & _ & Hnear & _).
  split.
  - apply (Hzero {| total := Some (of_N 0); by_status := None |}).
    right. reflexivity.
  - apply (Hnear 1000000000000%N 999999999999%N); lia.
Defined.

End AnalyticsClaims.

(** ** The record fetch *)

Section ApiClaims.

Import Js Api.

Lemma getReport_failure (id : string) (res : Response) :
  ok res = false ->
  getReport (answering res) id = Throw (Error (errorMessage res)).
Proof.
  intros Hok. unfold getReport, answering, handleResponse. now rewrite Hok.
Qed.

(** A failed record fetch settles as the exception the handler raised,
    whatever the JSON parser makes of the body. *)
Lemma settle_failure (JSON_failure : string -> option string)
      (id : string) (res : Response) :
  ok res = false ->
  settle JSON_failure (getReport (answering res) id) = getReport (answering res) id.
Proof.
  intros Hok. rewrite getReport_failure by exact Hok. reflexivity.
Qed.

Lemma append_inj_left_exact (p s t : string) : p +:+ s = p +:+ t -> s = t.
Proof.
  induction p as [| c p IH]; simpl; intros H; [exact H |].
  injection H as H. auto.
Qed.

(** The status can be read back from the message: only 404 renders as
    ["404"] before the separator. *)
Lemma message_of_404 (n : N) (detail detail' : string) :
  decimal n +:+ " - " +:+ detail' = "404 - " +:+ detail -> n = 404%N.
Proof.
  unfold decimal. intros H.
  rewrite <- (DecimalN.Unsigned.of_to n).
  destruct (N.to_uint n) as [| u | u | u | u | u | u | u | u | u | u];
    simpl in H; try discriminate.
  injection H as H.
  destruct u as [| u | u | u | u | u | u | u | u | u | u];
    simpl in H; try discriminate.
  injection H as H.
  destruct u as [| u | u | u | u | u | u | u | u | u | u];
    simpl in H; try discriminate.
  injection H as H.
  destruct u as [| u | u | u | u | u | u | u | u | u | u];
    simpl in H; try discriminate.
  reflexivity.
Qed.

(** C7, as stated, fails: a record fetch answered with 404 and one answered
    with 500 raise the same kind of exception and render the same line. *)
Lemma not_found_surfaces_like_server_error :
  ~ Stated.not_found_is_distinct "123"
      {| status := 500; statusText := "Internal Server Error";
         body := ""; contentType := None |}.
Proof.
  unfold Stated.not_found_is_distinct. intros H.
  apply (H ltac:(reflexivity) ltac:(discriminate)
           {| status := 404; statusText := "Not Found";
              body := ""; contentType := None |}
           ltac:(reflexivity)).
  vm_compute. reflexivity.
Qed.

(** C7, amended: a record fetch answered with 404 raises the generic
    [Error] that every non-2xx status raises, with the message
    "API Error: 404 - " followed by the body or the status text; the page
    renders the same line for it as for any other failed status, and only
    the status code inside the message tells it from them. *)
Theorem not_found_is_a_generic_api_error (id : string) (res : Response) :
  status res = 404%N ->
  getReport (answering res) id
  = Throw {| exn_name := "Error";
             exn_message :=
               "API Error: 404 - "
               +:+ (if truthy_string (body res) then body res else statusText res) |}
  /\ forall other : Response,
       ok other = false ->
       surfaced id (getReport (answering other) id)
       = surfaced id (getReport (answering res) id)
       /\ (status other <> 404%N ->
           getReport (answering other) id <> getReport (answering res) id).
Proof.
  intros Hstatus.
  assert (Hok : ok res = false) by (unfold ok; rewrite Hstatus; reflexivity).
  assert (Hmessage : errorMessage res
                     = "API Error: 404 - "
                       +:+ (if truthy_string (body res) then body res
                            else statusText res)).
  { unfold errorMessage. rewrite Hstatus. reflexivity. }
  split.
  - rewrite getReport_failure by exact Hok. rewrite Hmessage. reflexivity.
  - intros other Hother. rewrite !getReport_failure by assumption.
    split; [reflexivity |].
    intros Hne Heq. apply Hne.
    assert (Hm : errorMessage other = errorMessage res)
      by exact (f_equal (fun o => match o with
                                  | Throw e => exn_message e
                                  | _ => EmptyString
                                  end) Heq).
    rewrite Hmessage in Hm. unfold errorMessage in Hm.
    change ("API Error: " +:+ (decimal (status other) +:+ " - "
                               +:+ (if truthy_string (body other) then body other
                                    else statusText other))
            = "API Error: " +:+ ("404 - "
                                 +:+ (if truthy_string (body res) then body res
                                      else statusText res))) in Hm.
    apply append_inj_left_exact in Hm.
    eapply message_of_404. exact Hm.
Qed.

(** A 404 answer with a body. *)
Lemma not_found_is_a_generic_api_error_witness :
  getReport (answering {| status := 404; statusText := "Not Found";
                          body := "Report not found";
                          contentType := Some "application/json" |}) "123"
  = Throw {| exn_name := "Error";
             exn_message := "API Error: 404 - Report not found" |}.
Proof.
  apply (not_found_is_a_generic_api_error "123"
           {| status := 404; statusText := "Not Found";
              body := "Report not found";
              contentType := Some "application/json" |}).
  reflexivity.
Defined.

End ApiClaims.

(** ** The invalidation after a submission *)

Section QueryClientClaims.

Import QueryClient.

Lemma sameKey_reports (k : QueryKey) (filters : list (string * option string)) :
  sameKey k (reportsKey filters) = true ->
  exists params, k = [KStr "reports"; KObj params].
Proof.
  unfold sameKey, reportsKey. intros H. apply andb_true_iff in H as [H1 H2].
  destruct k as [| a [| b [| c k]]]; cbn [partialMatchKey] in H1, H2.
  - discriminate.
  - apply andb_true_iff in H1 as [_ H1]. discriminate.
  - apply andb_true_iff in H1 as [Ha H1]. apply andb_true_iff in H1 as [Hb _].
    destruct a as [s | pa]; [| discriminate].
    destruct b as [t | pb]; [discriminate |].
    apply String.eqb_eq in Ha. subst s. now exists pb.
  - apply andb_true_iff in H2 as [_ H2]. apply andb_true_iff in H2 as [_ H2].
    discriminate.
Qed.

Lemma sameKey_stats (k : QueryKey) :
  sameKey k statsKey = true -> k = [KStr "stats"].
Proof.
  unfold sameKey, statsKey. intros H. apply andb_true_iff in H as [H1 H2].
  destruct k as [| a [| b k]]; cbn [partialMatchKey] in H1, H2.
  - discriminate.
  - apply andb_true_iff in H1 as [Ha _].
    destruct a as [s | pa]; [| discriminate].
    apply String.eqb_eq in Ha. now subst s.
  - apply andb_true_iff in H2 as [_ H2]. discriminate.
Qed.

(** Neither a list key nor the stats key is matched by the key the success
    handler invalidates, whether keys are compared by prefix or exactly. *)
Lemma onSuccessKey_matches_no_list (exact : bool)
      (params : list (string * option string)) :
  (if exact then sameKey [KStr "reports"; KObj params] onSuccessKey
   else partialMatchKey [KStr "reports"; KObj params] onSuccessKey) = false.
Proof. destruct exact; reflexivity. Qed.

Lemma onSuccessKey_matches_no_stats (exact : bool) :
  (if exact then sameKey statsKey onSuccessKey
   else partialMatchKey statsKey onSuccessKey) = false.
Proof. destruct exact; reflexivity. Qed.

Lemma entry_after_invalidation (exact : bool) (filterKey k : QueryKey)
      (store : Store) :
  (forall k', sameKey k' k = true ->
              (if exact then sameKey k' filterKey
               else partialMatchKey k' filterKey) = false) ->
  entry k (invalidateQueries exact filterKey store) = entry k store.
Proof.
  intros Hmiss. unfold entry, invalidateQueries.
  induction store as [| e store IH]; simpl; [reflexivity |].
  destruct (sameKey (queryKey e) k) eqn:Hsame.
  - rewrite (Hmiss _ Hsame). now rewrite Hsame.
  - destruct (if exact then sameKey (queryKey e) filterKey
              else partialMatchKey (queryKey e) filterKey);
      simpl; rewrite Hsame; exact IH.
Qed.

(** C1 does not hold of the code: the success handler of the report form
    invalidates the single key [reports, stats], which matches neither a
    list key [reports, filters] nor the key [stats].  Whatever the store
    holds, the entries under those keys are left as they were, so a read
    triggers a fetch after the submission exactly when it would have without
    it; entries fetched a second ago are served from the cache. *)
Theorem create_success_invalidates_no_list_or_stats_entry
        (exact : bool) (filters : list (string * option string)) (store : Store) :
  entry (reportsKey filters) (onSuccess exact store)
  = entry (reportsKey filters) store
  /\ entry statsKey (onSuccess exact store) = entry statsKey store
  /\ (forall now staleTime,
        readFetches now staleTime (reportsKey filters) (onSuccess exact store)
        = readFetches now staleTime (reportsKey filters) store
        /\ readFetches now staleTime statsKey (onSuccess exact store)
           = readFetches now staleTime statsKey store)
  /\ readFetches 1000 reportsStaleTime (reportsKey [])
       (onSuccess exact [fetched (reportsKey []) 0; fetched statsKey 0]) = false
  /\ readFetches 1000 statsStaleTime statsKey
       (onSuccess exact [fetched (reportsKey []) 0; fetched statsKey 0]) = false.
Proof.
  assert (Hlist : entry (reportsKey filters) (onSuccess exact store)
                  = entry (reportsKey filters) store).
  { apply entry_after_invalidation. intros k' Hk'.
    apply sameKey_reports in Hk' as [params ->].
    apply onSuccessKey_matches_no_list. }
  assert (Hstats : entry statsKey (onSuccess exact store) = entry statsKey store).
  { apply entry_after_invalidation. intros k' Hk'.
    apply sameKey_stats in Hk' as ->.
    apply onSuccessKey_matches_no_stats. }
  repeat split; try assumption.
  - unfold readFetches. now rewrite Hlist.
  - unfold readFetches. now rewrite Hstats.
  - destruct exact; reflexivity.
  - destruct exact; reflexivity.
Qed.

(** Had the handler invalidated the two keys, both reads would fetch. *)
Example invalidating_both_keys_refetches :
  let store := [fetched (reportsKey []) 0; fetched statsKey 0] in
  let store' :=
    invalidateQueries false statsKey
      (invalidateQueries false [KStr "reports"] store) in
  readFetches 1000 reportsStaleTime (reportsKey []) store' = true
  /\ readFetches 1000 statsStaleTime statsKey store' = true.
Proof. split; reflexivity. Qed.

End QueryClientClaims.

(** ** More on the report form *)

Section ReportFormMore.

Import Js ReportForm FormControls.

Lemma get_in_keys (k : string) (o : object) (v : value) :
  get k o = Some v -> In k (keys o).
Proof.
  induction o as [| [k' v'] o IH]; simpl; [discriminate |].
  destruct (String.eqb k k') eqn:Hk; [| auto].
  apply String.eqb_eq in Hk. auto.
Qed.

(** X1: the multipart body holds a scalar part for a key exactly when the
    report object has a non-null value under it, and a file part exactly for
    the selected photo, under the key photo. *)
Theorem body_parts_characterised (vars : MutationVars) (k : string) :
  (forall v, In (k, Field v) (mutationFn vars)
             <-> get k (reportData vars) = Some v /\ v <> Null)
  /\ (forall f, In (k, FilePart f) (mutationFn vars)
                <-> k = "photo" /\ vars_photo vars = Some f).
Proof.
  split.
  - intros v. split.
    + intros Hin. apply field_in_body in Hin as [Hget Hnn].
      split; [exact Hget | intros ->; discriminate].
    + intros [Hget Hnn]. rewrite mutationFn_parts, in_app_iff. left.
      apply in_flat_map. exists k. split; [eapply get_in_keys; eauto |].
      unfold parts_of. rewrite Hget. destruct v; [contradiction | |]; simpl; auto.
  - intros f. rewrite mutationFn_parts, in_app_iff, in_flat_map. split.
    + intros [(k' & _ & Hin) | Hin].
      * unfold parts_of in Hin.
        destruct (get k' (reportData vars)) as [v |]; [| contradiction].
        destruct (not_null v); [| contradiction].
        destruct Hin as [Heq | []]. discriminate.
      * destruct (vars_photo vars) as [f' |]; [| contradiction].
        destruct Hin as [Heq | []]. injection Heq as <- <-. auto.
    + intros [-> ->]. right. left. reflexivity.
Qed.

Lemma submit_complete (geo : option GeoOutcome) (st : State) :
  complete (formData st) ->
  submit geo st = (setError None st, [bodyOf geo st]).
Proof.
  intros Hcomplete. apply incomplete_false in Hcomplete.
  unfold submit. rewrite attempt_complete by exact Hcomplete.
  cbn [map]. rewrite mutationFn_parts. unfold bodyOf.
  destruct geo as [[position |] |]; reflexivity.
Qed.



(** Whatever an event posts is the body of an attempt on a complete form. *)
Lemma step_posts (ev : Event) (st : State) (body : FormDataBody) :
  In body (snd (step ev st)) ->
  exists geo, ev = Submitted geo /\ complete (formData st) /\ body = bodyOf geo st.
Proof.
  destruct ev as [fd | file | geo | | message]; simpl; try (intros []).
  destruct (incomplete (formData st)) eqn:Hc.
  - unfold submit. rewrite attempt_incomplete by exact Hc. intros [].
  - apply incomplete_false in Hc.
    rewrite submit_complete by exact Hc.
    intros [<- | []]. eauto.
Qed.

Lemma run_posts (evs : list Event) (st : State) (body : FormDataBody) :
  In body (snd (run evs st)) ->
  exists geo st', complete (formData st') /\ body = bodyOf geo st'.
Proof.
  revert st. induction evs as [| ev evs IH]; intros st; simpl; [intros [] |].
  pose proof (step_posts ev st body) as Hstep.
  destruct (step ev st) as [st1 posted1]. simpl in Hstep.
  specialize (IH st1). destruct (run evs st1) as [st2 posted2]. simpl in *.
  rewrite in_app_iff. intros [Hin | Hin]; [| auto].
  destruct (Hstep Hin) as (geo & _ & Hc & ->). eauto.
Qed.

(** X3: whatever happens to the form and in whatever state it starts, a
    body is only ever posted with the four required fields non-empty, with
    the status Submitted, and with both coordinates or neither. *)
Theorem posted_bodies_are_valid (evs : list Event) (st : State)
        (body : FormDataBody) :
  In body (snd (run evs st)) ->
  (exists city station category text,
      In ("station_city", Field (Str city)) body /\ city <> ""
      /\ In ("station_name", Field (Str station)) body /\ station <> ""
      /\ In ("issue_category", Field (Str category)) body /\ category <> ""
      /\ In ("description", Field (Str text)) body /\ text <> "")
  /\ In ("status", Field (Str "Submitted")) body
  /\ (In "latitude" (body_keys body) <-> In "longitude" (body_keys body)).
Proof.
  intros Hin. apply run_posts in Hin as (geo & st' & (Hc1 & Hc2 & Hc3 & Hc4) & ->).
  split; [| split].
  - exists (station_city (formData st')), (station_name (formData st')),
      (issue_category (formData st')), (description (formData st')).
    unfold bodyOf. simpl. auto 20.
  - unfold bodyOf. simpl. auto 20.
  - unfold bodyOf, body_keys.
    destruct geo as [[position |] |]; destruct (photo st'); simpl; split;
      intros H; try (auto 20; fail);
      repeat (destruct H as [H | H]; [discriminate |]); contradiction.
Qed.

(** A failed attempt on an empty form, then the form is filled and sent. *)
Lemma posted_bodies_are_valid_witness :
  In ("status", Field (Str "Submitted"))
     (bodyOf None
        {| formData :=
             {| station_city := "Calgary"; station_name := "Chinook";
                issue_category := "Vandalism"; description := "Broken glass";
                urgency_level := "Medium"; reporter_contact := "" |};
           photo := None; error := None |}).
Proof.
  apply (posted_bodies_are_valid
           [ Submitted None;
             FieldsEdited
               {| station_city := "Calgary"; station_name := "Chinook";
                  issue_category := "Vandalism"; description := "Broken glass";
                  urgency_level := "Medium"; reporter_contact := "" |};
             Submitted None ]
           initial).
  vm_compute. left. reflexivity.
Defined.




(** X6: choosing a city empties the station, so a submission right after a
    change of city posts nothing, whatever the form held. *)
Theorem city_change_needs_a_station
        (value : string) (geo : option GeoOutcome) (st : State) :
  station_name (formData (fst (perform [Entered (CityChosen value)] st))) = ""
  /\ snd (perform [Entered (CityChosen value); SubmitPressed geo] st) = [].
Proof.
  split; [reflexivity |].
  cbn [perform event_of step change]. unfold submit.
  rewrite attempt_incomplete; [reflexivity |].
  apply incomplete_true. right. left. reflexivity.
Qed.

Lemma change_from_controls (i : Input) (fd : FormFields) :
  from_controls fd -> offered fd i -> from_controls (change i fd).
Proof.
  unfold from_controls. intros (Hstation & Hcategory & Hurgency) Hoffered.
  destruct i as [v | v | v | v | v | v]; simpl in *; repeat split; auto.
  destruct Hoffered as (stations & Hoptions & Hin). right.
  unfold stationOptions in Hoptions.
  destruct (truthy_string (station_city fd)); [eauto | discriminate].
Qed.

Lemma step_from_controls (a : Action) (st : State) :
  from_controls (formData st) ->
  match a with
  | Entered i => offered (formData st) i
  | _ => True
  end ->
  from_controls (formData (fst (step (event_of a st) st))).
Proof.
  intros Hfd Hoffered.
  destruct a as [i | file | geo | | message]; simpl.
  - now apply change_from_controls.
  - unfold handlePhotoChange.
    destruct (match file with
              | Some f => (MAX_PHOTO_SIZE <? file_size f)%N
              | None => false
              end); exact Hfd.
  - unfold submit. destruct (incomplete (formData st)) eqn:Hc.
    + rewrite attempt_incomplete by exact Hc. exact Hfd.
    + rewrite attempt_complete by exact Hc. exact Hfd.
  - unfold from_controls. simpl. repeat split; auto.
  - exact Hfd.
Qed.

Lemma perform_posts (acts : list Action) (st : State) (body : FormDataBody) :
  from_controls (formData st) -> available acts st ->
  In body (snd (perform acts st)) ->
  exists geo st',
    complete (formData st') /\ from_controls (formData st')
    /\ body = bodyOf geo st'.
Proof.
  revert st. induction acts as [| a acts IH]; intros st Hfd Havail; simpl;
    [intros [] |].
  destruct Havail as [Hoffered Havail].
  pose proof (step_from_controls a st Hfd Hoffered) as Hfd1.
  pose proof (step_posts (event_of a st) st body) as Hstep.
  destruct (step (event_of a st) st) as [st1 posted1]. simpl in *.
  specialize (IH st1 Hfd1 Havail).
  destruct (perform acts st1) as [st2 posted2]. simpl in *.
  rewrite in_app_iff. intros [Hin | Hin]; [| auto].
  destruct (Hstep Hin) as (geo & _ & Hc & ->). eauto.
Qed.

(** X7: when every field value is entered through the form's controls,
    starting from the empty form, each body posted names a station of the
    city it names, one of the seven issue categories and one of the four
    urgency levels. *)
Theorem controls_post_stations_of_the_city
        (acts : list Action) (body : FormDataBody) :
  available acts initial ->
  In body (snd (perform acts initial)) ->
  exists city station category urgency stations,
    In ("station_city", Field (Str city)) body
    /\ In ("station_name", Field (Str station)) body
    /\ In ("issue_category", Field (Str category)) body
    /\ In ("urgency_level", Field (Str urgency)) body
    /\ STATIONS !! city = Some stations /\ In station stations
    /\ In category ISSUE_CATEGORIES
    /\ In urgency URGENCY_LEVELS.
Proof.
  intros Havail Hin.
  assert (Hinit : from_controls (formData initial)).
  { unfold from_controls, URGENCY_LEVELS. simpl. auto 10. }
  destruct (perform_posts acts initial body Hinit Havail Hin)
    as (geo & st & (_ & Hs & Hcat & _) & (Hstation & Hcategory & Hurgency) & ->).
  destruct Hstation as [Hempty | (stations & Hlist & Hmember)]; [contradiction |].
  destruct Hcategory as [Hempty | Hcategory]; [contradiction |].
  exists (station_city (formData st)), (station_name (formData st)),
    (issue_category (formData st)), (urgency_level (formData st)), stations.
  unfold bodyOf. simpl. auto 20.
Qed.

(** A report on Corona station in Edmonton, entered control by control. *)
Lemma controls_post_stations_of_the_city_witness :
  exists city station category urgency stations,
    In ("station_city", Field (Str city))
       (bodyOf None
          {| formData :=
               {| station_city := "Edmonton"; station_name := "Corona";
                  issue_category := "Other"; description := "Wet floor";
                  urgency_level := "Medium"; reporter_contact := "" |};
             photo := None; error := None |})
    /\ In ("station_name", Field (Str station))
         (bodyOf None
            {| formData :=
                 {| station_city := "Edmonton"; station_name := "Corona";
                    issue_category := "Other"; description := "Wet floor";
                    urgency_level := "Medium"; reporter_contact := "" |};
               photo := None; error := None |})
    /\ In ("issue_category", Field (Str category))
         (bodyOf None
            {| formData :=
                 {| station_city := "Edmonton"; station_name := "Corona";
                    issue_category := "Other"; description := "Wet floor";
                    urgency_level := "Medium"; reporter_contact := "" |};
               photo := None; error := None |})
    /\ In ("urgency_level", Field (Str urgency))
         (bodyOf None
            {| formData :=
                 {| station_city := "Edmonton"; station_name := "Corona";
                    issue_category := "Other"; description := "Wet floor";
                    urgency_level := "Medium"; reporter_contact := "" |};
               photo := None; error := None |})
    /\ STATIONS !! city = Some stations /\ In station stations
    /\ In category ISSUE_CATEGORIES
    /\ In urgency URGENCY_LEVELS.
Proof.
  apply (controls_post_stations_of_the_city
           [ Entered (CityChosen "Edmonton"); Entered (StationChosen "Corona");
             Entered (CategoryChosen "Other");
             Entered (DescriptionTyped "Wet floor"); SubmitPressed None ]).
  - cbn [available event_of step change fst]. repeat split.
    + left. reflexivity.
    + exists [ "Clareview"; "Belvedere"; "Coliseum"; "Stadium"; "Churchill";
               "Central"; "Bay/Enterprise Square"; "Corona";
               "Grandin/Government Centre"; "University"; "Health Sciences";
               "McKernan/Belgravia"; "South Campus/Fort Edmonton Park";
               "Southgate"; "Century Park"; "Mill Woods" ].
      split; [vm_compute; reflexivity | simpl; auto 10].
    + simpl. auto 10.
  - vm_compute. left. reflexivity.
Defined.

End ReportFormMore.

(** ** More on the dashboard's orders *)

Section DashboardMore.

Import JsArray Dashboard DashboardOrders.

Lemma sort_idempotent {A : Type} (key : A -> Z) (l : list A) :
  sort (descending key) (sort (descending key) l) = sort (descending key) l.
Proof.
  symmetry. apply sort_is_the_stable_arrangement;
    [apply sort_sorted | reflexivity].
Qed.

Lemma sortedReports_by_urgency (Date_parse : string -> option Z) (l : list Report) :
  Forall known_urgency l ->
  sortedReports Date_parse (Some l) (Some "urgency_level:desc")
  = sort (descending rank_key) l.
Proof.
  intros Hl. unfold sortedReports. apply sort_agree. intros a b Ha Hb.
  rewrite List.Forall_forall in Hl. apply compare_by_urgency; auto.
Qed.

Lemma sortedReports_by_date (Date_parse : string -> option Z)
      (sortKey : option string) (l : list Report) :
  by_date sortKey ->
  Forall (fun r => time Date_parse r <> None) l ->
  sortedReports Date_parse (Some l) sortKey
  = sort (descending (time_key Date_parse)) l.
Proof.
  intros Hkey Hl. unfold sortedReports. apply sort_agree. intros a b Ha Hb.
  rewrite List.Forall_forall in Hl. apply compare_by_date; auto.
Qed.

Lemma Forall_sort {A : Type} (P : A -> Prop) (f : A -> A -> option Z) (l : list A) :
  Forall P l -> Forall P (sort f l).
Proof.
  rewrite !List.Forall_forall. intros Hl x Hx. apply Hl.
  eapply Permutation_in; [symmetry; apply sort_permutation | exact Hx].
Qed.

(** X9: a sort key that is neither empty nor one of the two the comparator
    knows leaves the reports in the order they were fetched. *)
Theorem unknown_sort_key_keeps_order
        (Date_parse : string -> option Z) (l : list Report) (k : string) :
  k <> "" -> k <> "created_date:desc" -> k <> "urgency_level:desc" ->
  sortedReports Date_parse (Some l) (Some k) = l.
Proof.
  intros Hne Hdate Hurgency. unfold sortedReports. apply sort_all_equal.
  intros a b _ _. unfold SortCompare, compareReports. simpl.
  destruct k as [| c k]; [contradiction |]. cbn [Js.truthy_string negb orb].
  apply String.eqb_neq in Hdate, Hurgency. rewrite Hdate, Hurgency. reflexivity.
Qed.

(** Three reports under a sort key the comparator does not know. *)
Lemma unknown_sort_key_keeps_order_witness :
  sortedReports calendar_date_parse
    (Some [ mkReport 1 (Some "Low") (DateString "2024-01-01");
            mkReport 2 (Some "Critical") (DateString "2024-06-01");
            mkReport 3 (Some "High") DateNull ])
    (Some "status:asc")
  = [ mkReport 1 (Some "Low") (DateString "2024-01-01");
      mkReport 2 (Some "Critical") (DateString "2024-06-01");
      mkReport 3 (Some "High") DateNull ].
Proof.
  apply (unknown_sort_key_keeps_order calendar_date_parse
           [ mkReport 1 (Some "Low") (DateString "2024-01-01");
             mkReport 2 (Some "Critical") (DateString "2024-06-01");
             mkReport 3 (Some "High") DateNull ] "status:asc");
    discriminate.
Defined.

(** X10: when no report has a created_date that denotes a date, the order
    by date leaves the reports as they were fetched: every comparison is
    NaN. *)
Theorem undated_collection_keeps_order
        (Date_parse : string -> option Z) (sortKey : option string)
        (l : list Report) :
  by_date sortKey ->
  Forall (fun r => time Date_parse r = None) l ->
  sortedReports Date_parse (Some l) sortKey = l.
Proof.
  intros Hkey Hl. unfold sortedReports. apply sort_all_equal.
  intros a b Ha Hb. rewrite List.Forall_forall in Hl.
  unfold SortCompare, compareReports.
  rewrite (Hl a Ha), (Hl b Hb).
  destruct Hkey as [-> | [-> | ->]]; reflexivity.
Qed.

(** Two reports without a date and one with a text that is no date. *)
Lemma undated_collection_keeps_order_witness :
  sortedReports calendar_date_parse
    (Some [ mkReport 1 (Some "Low") DateUndefined;
            mkReport 2 (Some "High") (DateString "yesterday");
            mkReport 3 (Some "Low") DateUndefined ])
    None
  = [ mkReport 1 (Some "Low") DateUndefined;
      mkReport 2 (Some "High") (DateString "yesterday");
      mkReport 3 (Some "Low") DateUndefined ].
Proof.
  apply (undated_collection_keeps_order calendar_date_parse None
           [ mkReport 1 (Some "Low") DateUndefined;
             mkReport 2 (Some "High") (DateString "yesterday");
             mkReport 3 (Some "Low") DateUndefined ]).
  - left. reflexivity.
  - repeat constructor.
Defined.

(** X11: under the order by date, on a collection whose dates all denote a
    date, the reports of one time value keep the order they were fetched
    in. *)
Theorem date_order_is_stable
        (Date_parse : string -> option Z) (sortKey : option string)
        (l : list Report) (t : Z) :
  by_date sortKey ->
  Forall (fun r => time Date_parse r <> None) l ->
  at_time Date_parse t (sortedReports Date_parse (Some l) sortKey)
  = at_time Date_parse t l.
Proof.
  intros Hkey Hl. rewrite sortedReports_by_date by assumption.
  assert (Hkeyed : forall l', Forall (fun r => time Date_parse r <> None) l' ->
                              at_time Date_parse t l'
                              = with_key (time_key Date_parse) t l').
  { intros l' Hl'. unfold at_time, with_key. apply filter_ext_in.
    intros r Hr. rewrite List.Forall_forall in Hl'. specialize (Hl' r Hr).
    unfold time_key. destruct (time Date_parse r); [reflexivity | contradiction]. }
  rewrite !Hkeyed by (try apply Forall_sort; assumption).
  apply sort_stable.
Qed.

(** Two reports of the same day around a newer one. *)
Lemma date_order_is_stable_witness :
  map id
      (at_time calendar_date_parse 1704067200000
         (sortedReports calendar_date_parse
            (Some [ mkReport 1 (Some "Low") (DateString "2024-01-01");
                    mkReport 2 (Some "Low") (DateString "2024-06-01");
                    mkReport 3 (Some "Low") (DateString "2024-01-01") ])
            None))
  = [1; 3]%N.
Proof.
  rewrite (date_order_is_stable calendar_date_parse None
             [ mkReport 1 (Some "Low") (DateString "2024-01-01");
               mkReport 2 (Some "Low") (DateString "2024-06-01");
               mkReport 3 (Some "Low") (DateString "2024-01-01") ]
             1704067200000).
  - reflexivity.
  - left. reflexivity.
  - repeat constructor; vm_compute; discriminate.
Defined.

(** X12: sorting a view that is already sorted changes nothing, for the
    order by urgency on known urgency levels and for the order by date on
    valid dates. *)
Theorem sorting_a_sorted_view_changes_nothing
        (Date_parse : string -> option Z) (l : list Report) :
  (Forall known_urgency l ->
   sortedReports Date_parse
     (Some (sortedReports Date_parse (Some l) (Some "urgency_level:desc")))
     (Some "urgency_level:desc")
   = sortedReports Date_parse (Some l) (Some "urgency_level:desc"))
  /\ (forall sortKey,
        by_date sortKey ->
        Forall (fun r => time Date_parse r <> None) l ->
        sortedReports Date_parse
          (Some (sortedReports Date_parse (Some l) sortKey)) sortKey
        = sortedReports Date_parse (Some l) sortKey).
Proof.
  split.
  - intros Hl. rewrite (sortedReports_by_urgency Date_parse l Hl).
    rewrite sortedReports_by_urgency by (apply Forall_sort; exact Hl).
    apply sort_idempotent.
  - intros sortKey Hkey Hl.
    rewrite (sortedReports_by_date Date_parse sortKey l Hkey Hl).
    rewrite sortedReports_by_date by (try apply Forall_sort; assumption).
    apply sort_idempotent.
Qed.

(** Three reports ordered by urgency twice. *)
Lemma sorting_a_sorted_view_changes_nothing_witness :
  sortedReports calendar_date_parse
    (Some (sortedReports calendar_date_parse
             (Some [ mkReport 1 (Some "Low") DateNull;
                     mkReport 2 (Some "Critical") DateNull;
                     mkReport 3 (Some "Low") DateNull ])
             (Some "urgency_level:desc")))
    (Some "urgency_level:desc")
  = sortedReports calendar_date_parse
      (Some [ mkReport 1 (Some "Low") DateNull;
              mkReport 2 (Some "Critical") DateNull;
              mkReport 3 (Some "Low") DateNull ])
      (Some "urgency_level:desc").
Proof.
  destruct (sorting_a_sorted_view_changes_nothing calendar_date_parse
              [ mkReport 1 (Some "Low") DateNull;
                mkReport 2 (Some "Critical") DateNull;
                mkReport 3 (Some "Low") DateNull ]) as [Hurgency _].
  apply Hurgency.
  repeat constructor; eexists; (split; [reflexivity | simpl; auto]).
Defined.

End DashboardMore.

(** ** The chart series *)

Section SeriesFacts.

Import JsArray Series.

(** X13: the category series holds one point per entry of by_category,
    largest value first, points of equal value in the order of the entries;
    it is empty when the field is absent. *)
Theorem category_series_is_descending_and_stable
        (by_category : option (list (string * Z))) :
  Permutation (points by_category) (categoryData by_category)
  /\ Sorted (fun a b => (value b <= value a)%Z) (categoryData by_category)
  /\ (forall v, with_key value v (categoryData by_category)
                = with_key value v (points by_category))
  /\ categoryData None = [].
Proof.
  unfold categoryData. repeat split.
  - apply sort_permutation.
  - apply (sort_sorted value).
  - intros v. apply (sort_stable value).
Qed.

(** X14: every cell of the urgency chart gets one of the eight colours,
    and the colours repeat with period eight. *)
Theorem every_cell_has_a_colour (index : nat) :
  (exists colour, cellColor index = Some colour /\ In colour COLORS)
  /\ cellColor (index + 8) = cellColor index.
Proof.
  unfold cellColor. change (length COLORS) with 8%nat. split.
  - pose proof (Nat.mod_upper_bound index 8 ltac:(discriminate)) as Hlt.
    destruct (nth_error COLORS (index mod 8)) as [colour |] eqn:Hnth.
    + exists colour. split; [reflexivity |]. eapply nth_error_In. exact Hnth.
    + apply nth_error_None in Hnth. change (length COLORS) with 8%nat in Hnth. lia.
  - replace (index + 8)%nat with (index + 1 * 8)%nat by lia.
    now rewrite Nat.Div0.mod_add.
Qed.

End SeriesFacts.

(** ** More on the response handler *)

Section ApiMore.

Import Js Api.

(** A decimal numeral followed by a space determines the numeral and what
    follows the space: no digit is a space. *)
Lemma numeral_then_space (u u' : Decimal.uint) (r r' : string) :
  NilEmpty.string_of_uint u +:+ String " " r
  = NilEmpty.string_of_uint u' +:+ String " " r' ->
  u = u' /\ r = r'.
Proof.
  revert u'. induction u as [| u IH | u IH | u IH | u IH | u IH | u IH | u IH
                             | u IH | u IH | u IH];
    intros u'; destruct u' as [| u' | u' | u' | u' | u' | u' | u' | u' | u' | u'];
    cbn [NilEmpty.string_of_uint String.append]; intros H; try discriminate;
    injection H as H;
    try (apply IH in H as [-> ->]); auto.
Qed.

(** X15: the message of an API error determines the status code and the
    detail (the body, or the status text for an empty body): two failed
    responses give the same message exactly when they agree on both. *)
Theorem error_message_tells_status_and_detail (res res' : Response) :
  errorMessage res = errorMessage res'
  <-> status res = status res'
      /\ (if truthy_string (body res) then body res else statusText res)
         = (if truthy_string (body res') then body res' else statusText res').
Proof.
  unfold errorMessage. split.
  - intros H.
    change ("API Error: " +:+ (decimal (status res) +:+ String " " ("- "
              +:+ (if truthy_string (body res) then body res else statusText res)))
            = "API Error: " +:+ (decimal (status res') +:+ String " " ("- "
              +:+ (if truthy_string (body res') then body res'
                   else statusText res')))) in H.
    apply append_inj_left_exact in H. unfold decimal in H.
    apply numeral_then_space in H as [Hu Hr].
    split.
    + rewrite <- (DecimalN.Unsigned.of_to (status res)),
        <- (DecimalN.Unsigned.of_to (status res')).
      now rewrite Hu.
    + now apply append_inj_left_exact in Hr.
  - intros [-> ->]. reflexivity.
Qed.

(** Two 404 answers with the same detail: one in the body, one in the
    status text. *)
Lemma error_message_tells_status_and_detail_witness :
  errorMessage {| status := 404; statusText := "Not Found"; body := "";
                  contentType := None |}
  = errorMessage {| status := 404; statusText := "Missing"; body := "Not Found";
                    contentType := None |}.
Proof.
  apply (error_message_tells_status_and_detail
           {| status := 404; statusText := "Not Found"; body := "";
              contentType := None |}
           {| status := 404; statusText := "Missing"; body := "Not Found";
              contentType := None |}).
  split; reflexivity.
Defined.

End ApiMore.

(** ** The list request *)

Section RequestsFacts.

Import Js QueryClient Requests.

Lemma searchParams_fold (params : Filters) (ks : list string)
      (acc : list (string * string)) :
  fold_left
    (fun (appended : list (string * string)) (key : string) =>
       match param key params with
       | Some (Some v) => if truthy_string v then appended ++ [(key, v)] else appended
       | _ => appended
       end) ks acc
  = acc ++ flat_map (appended_for params) ks.
Proof.
  revert acc. induction ks as [| k ks IH]; intros acc; simpl.
  - now rewrite app_nil_r.
  - rewrite IH. unfold appended_for at 2.
    destruct (param k params) as [[v |] |]; [destruct (truthy_string v) | |];
      simpl; now rewrite <- ?app_assoc.
Qed.

Lemma searchParams_flat (params : Filters) :
  searchParams params = flat_map (appended_for params) (map fst params).
Proof. unfold searchParams. now rewrite searchParams_fold. Qed.

Lemma param_in_keys (k : string) (params : Filters) (x : option string) :
  param k params = Some x -> In k (map fst params).
Proof.
  induction params as [| [k' v'] params IH]; simpl; [discriminate |].
  destruct (String.eqb k k') eqn:Hk; [| auto].
  apply String.eqb_eq in Hk. auto.
Qed.

Lemma in_appended_for (params : Filters) (key k : string) (v : string) :
  In (k, v) (appended_for params key)
  <-> key = k /\ param k params = Some (Some v) /\ v <> "".
Proof.
  unfold appended_for. split.
  - destruct (param key params) as [[s |] |] eqn:Hp; try contradiction.
    destruct s as [| c s]; simpl; [contradiction |].
    intros [Heq | []]. injection Heq as <- <-. repeat split; [exact Hp | discriminate].
  - intros (-> & Hp & Hne). rewrite Hp.
    destruct v; [contradiction | left; reflexivity].
Qed.

Lemma in_searchParams (params : Filters) (k v : string) :
  In (k, v) (searchParams params)
  <-> param k params = Some (Some v) /\ v <> "".
Proof.
  rewrite searchParams_flat, in_flat_map. split.
  - intros (key & _ & Hin). apply in_appended_for in Hin as (_ & Hp & Hne). auto.
  - intros [Hp Hne]. exists k. split; [eapply param_in_keys; eauto |].
    apply in_appended_for. auto.
Qed.

(** X17: the list request carries a parameter exactly for the filters that
    hold a non-empty string: filters that are null or empty are left out of
    the URL. *)
Theorem list_request_sends_the_set_filters (params : Filters) (k v : string) :
  In (k, v) (query (listReports params))
  <-> param k params = Some (Some v) /\ v <> "".
Proof.
  cbn [listReports query]. rewrite searchParams_flat, in_flat_map. split.
  - intros (key & _ & Hin). apply in_appended_for in Hin as (_ & Hp & Hne). auto.
  - intros [Hp Hne]. exists k. split; [eapply param_in_keys; eauto |].
    apply in_appended_for. auto.
Qed.

Lemma param_with_param (k : string) (v : option string) (filters : Filters)
      (k' : string) :
  param k' (with_param k v filters)
  = if String.eqb k' k then Some v else param k' filters.
Proof.
  induction filters as [| [k0 v0] filters IH]; simpl.
  - destruct (String.eqb k' k); reflexivity.
  - destruct (String.eqb k k0) eqn:Hk; simpl.
    + apply String.eqb_eq in Hk. subst k0.
      destruct (String.eqb k' k); reflexivity.
    + destruct (String.eqb k' k0) eqn:Hk'; [| exact IH].
      apply String.eqb_eq in Hk'. subst k0.
      rewrite String.eqb_sym in Hk. now rewrite Hk.
Qed.

Lemma in_searchParams_with_param
      (k : string) (v : option string) (filters : Filters) (k' s : string) :
  In (k', s) (searchParams (with_param k v filters))
  <-> if String.eqb k' k then v = Some s /\ s <> ""
      else In (k', s) (searchParams filters).
Proof.
  rewrite in_searchParams, param_with_param.
  destruct (String.eqb k' k).
  - split; intros [H Hne]; split; congruence.
  - now rewrite in_searchParams.
Qed.

(** X18: every handler of the filter bar changes one parameter of the next
    list request and leaves the others as they were: after setting [k], the
    request carries [k] exactly when the new value is a non-empty string,
    and any other parameter exactly when it carried it before. *)
Theorem filter_change_touches_one_parameter
        (k : string) (v : option string) (filters : Filters) (k' s : string) :
  In (k', s) (query (listReports (with_param k v filters)))
  <-> if String.eqb k' k then v = Some s /\ s <> ""
      else In (k', s) (query (listReports filters)).
Proof.
  cbn [listReports query]. rewrite in_searchParams, param_with_param.
  destruct (String.eqb k' k).
  - split; intros [H Hne]; split; congruence.
  - now rewrite in_searchParams.
Qed.

Lemma without_appended (params : Filters) (key k : string) :
  without k (appended_for params key)
  = if String.eqb key k then [] else appended_for params key.
Proof.
  unfold without, appended_for.
  destruct (param key params) as [[v |] |];
    [destruct (truthy_string v) | |]; simpl;
    destruct (String.eqb key k); reflexivity.
Qed.

Lemma without_flat_map (params : Filters) (k : string) (ks : list string) :
  without k (flat_map (appended_for params) ks)
  = flat_map (fun key => if String.eqb key k then [] else appended_for params key) ks.
Proof.
  induction ks as [| key ks IH]; simpl; [reflexivity |].
  unfold without in *. rewrite List.filter_app, IH. f_equal.
  apply without_appended.
Qed.

Lemma appended_for_unsent (k : string) (v : option string) (filters : Filters)
      (key : string) :
  sent v = false ->
  appended_for (with_param k v filters) key
  = if String.eqb key k then [] else appended_for filters key.
Proof.
  intros Hv. unfold appended_for. rewrite param_with_param.
  destruct (String.eqb key k); [| reflexivity].
  destruct v as [s |]; [| reflexivity]. simpl in Hv. now rewrite Hv.
Qed.

Lemma keys_with_param (k : string) (v : option string) (filters : Filters) :
  map fst (with_param k v filters) = map fst filters
  \/ map fst (with_param k v filters) = map fst filters ++ [k].
Proof.
  induction filters as [| [k0 v0] filters IH]; simpl; [right; reflexivity |].
  destruct (String.eqb k k0); simpl; [left; reflexivity |].
  destruct IH as [-> | ->]; auto.
Qed.

Lemma searchParams_unsent (k : string) (v : option string) (filters : Filters) :
  sent v = false ->
  searchParams (with_param k v filters) = without k (searchParams filters).
Proof.
  intros Hv. rewrite !searchParams_flat, without_flat_map.
  assert (Hflat : forall ks,
             flat_map (appended_for (with_param k v filters)) ks
             = flat_map (fun key => if String.eqb key k then []
                                    else appended_for filters key) ks).
  { intros ks. apply flat_map_ext. intros key.
    now apply appended_for_unsent. }
  rewrite Hflat. destruct (keys_with_param k v filters) as [-> | ->];
    [reflexivity |].
  rewrite flat_map_app. simpl. rewrite String.eqb_refl. now rewrite !app_nil_r.
Qed.

(** X19: choosing "all" in the status, urgency or city selection, or
    emptying the search box, removes that one constraint from the next list
    request and keeps the other parameters, in the same order. *)
Theorem clearing_a_filter_removes_only_it (filters : Filters) :
  query (listReports (onStatusChange "all" filters))
  = without "status" (query (listReports filters))
  /\ query (listReports (onUrgencyChange "all" filters))
     = without "urgency" (query (listReports filters))
  /\ query (listReports (onCityChange "all" filters))
     = without "city" (query (listReports filters))
  /\ query (listReports (onSearchChange "" filters))
     = without "search" (query (listReports filters)).
Proof.
  repeat split; apply searchParams_unsent; reflexivity.
Qed.

(** X20: the sort value chosen on the dashboard is stored in the filters,
    where the client-side sort reads it back, and, when it is not empty, it
    is also sent to the server as the parameter sort; the other parameters
    of the request stay. *)
Theorem sort_choice_is_stored_and_sent
        (sortValue : string) (filters : Filters) :
  sort_of (handleSortChange sortValue filters) = Some sortValue
  /\ (sortValue <> "" ->
      In ("sort", sortValue)
         (query (listReports (handleSortChange sortValue filters))))
  /\ (forall k s, k <> "sort" ->
        (In (k, s) (query (listReports (handleSortChange sortValue filters)))
         <-> In (k, s) (query (listReports filters)))).
Proof.
  unfold handleSortChange, sort_of. split; [| split].
  - rewrite param_with_param. reflexivity.
  - intros Hne. apply in_searchParams_with_param.
    rewrite String.eqb_refl. auto.
  - intros k s Hk. cbn [listReports query].
    rewrite in_searchParams_with_param.
    apply String.eqb_neq in Hk. now rewrite Hk.
Qed.

(** Choosing the order by urgency on filters that hold a status. *)
Lemma sort_choice_is_stored_and_sent_witness :
  In ("sort", "urgency_level:desc")
     (query (listReports
               (handleSortChange "urgency_level:desc"
                  [("status", Some "Resolved")]))).
Proof.
  destruct (sort_choice_is_stored_and_sent "urgency_level:desc"
              [("status", Some "Resolved")]) as (_ & Hsent & _).
  apply Hsent. discriminate.
Defined.

End RequestsFacts.

(** ** The report card *)

Section ReportCardFacts.

Import Js ReportCard.

Lemma includes_at_cons (c : ascii) (s : string) :
  Api.includes "@" (String c s)
  = if Ascii.eqb c "@" then true else Api.includes "@" s.
Proof.
  unfold Api.includes. cbn [index String.prefix].
  destruct (ascii_dec "@" c) as [<- | Hne].
  - assert (Hempty : String.prefix "" s = true) by (destruct s; reflexivity).
    rewrite Hempty. reflexivity.
  - assert (Hc : Ascii.eqb c "@" = false) by (apply Ascii.eqb_neq; congruence).
    rewrite Hc. destruct (index 0 "@" s); reflexivity.
Qed.

Lemma before_has_no_at (s : string) : Api.includes "@" (before "@" s) = false.
Proof.
  induction s as [| c s IH]; [reflexivity |]. cbn [before].
  destruct (Ascii.eqb c "@") eqn:Hc; [reflexivity |].
  now rewrite includes_at_cons, Hc.
Qed.

Lemma string_prefix_refl (s : string) : String.prefix s s = true.
Proof.
  induction s as [| c s IH]; [reflexivity |]. cbn [String.prefix].
  destruct (ascii_dec c c) as [_ | Hne]; [exact IH | contradiction].
Qed.

Lemma before_is_prefix (s : string) : String.prefix (before "@" s) s = true.
Proof.
  induction s as [| c s IH]; [reflexivity |]. cbn [before].
  destruct (Ascii.eqb c "@"); [reflexivity |]. cbn [String.prefix].
  destruct (ascii_dec c c) as [_ | Hne]; [exact IH | contradiction].
Qed.

(** A value with an at sign is the part before the first one, the at sign
    and a remainder. *)
Lemma before_splits (s : string) :
  Api.includes "@" s = true ->
  exists rest, s = before "@" s +:+ String "@" rest.
Proof.
  induction s as [| c s IH]; [intros H; vm_compute in H; discriminate |].
  rewrite includes_at_cons. cbn [before].
  destruct (Ascii.eqb c "@") eqn:Hc.
  - intros _. apply Ascii.eqb_eq in Hc. subst c. exists s. reflexivity.
  - intros Hs. destruct (IH Hs) as [rest Hrest]. exists rest.
    change (String c s = String c (before "@" s +:+ String "@" rest)).
    f_equal. exact Hrest.
Qed.

(** X21: the name a report card shows for created_by is the part of the
    value before its first at sign: the value is the name shown, the at sign
    and a remainder, and the name shown has no at sign.  A value without an
    at sign is shown whole, and nothing is shown for an absent or empty
    value. *)
Theorem card_author_is_the_part_before_the_at_sign (created_by : option string) :
  match author created_by with
  | Some shown =>
      exists s,
        created_by = Some s /\ s <> ""
        /\ Api.includes "@" shown = false
        /\ String.prefix shown s = true
        /\ (Api.includes "@" s = false -> shown = s)
        /\ (Api.includes "@" s = true ->
            exists rest, s = shown +:+ String "@" rest)
  | None => created_by = None \/ created_by = Some ""
  end.
Proof.
  unfold author. destruct created_by as [[| c s] |]; cbn [truthy_string];
    [right; reflexivity | | left; reflexivity].
  exists (String c s). split; [reflexivity |]. split; [discriminate |].
  destruct (Api.includes "@" (String c s)) eqn:Hat.
  - split; [apply before_has_no_at |]. split; [apply before_is_prefix |].
    split; [discriminate |]. intros _. apply before_splits. exact Hat.
  - split; [exact Hat |]. split; [apply string_prefix_refl |].
    split; [reflexivity | discriminate].
Qed.

End ReportCardFacts.

(** ** The photo, and the outcome of the post *)

Section SubmissionFacts.

Import Js ReportForm FormControls Submission.



(** X23: what the server answers to the post reaches the form.  A status
    outside 200-299 keeps the fields and the photo and shows the status code
    and the detail in the error; so does a request that got no response,
    with the exception message, and a response in the range whose content
    type mentions application/json but whose body the JSON parser rejects;
    every other response in the range empties the form. *)
Theorem post_outcome_reaches_the_form
        (JSON_failure : string -> option string)
        (fetch : FormDataBody -> Api.Fetched) (payload : FormDataBody)
        (st : State) :
  step (settled JSON_failure (submitReport fetch payload)) st
  = match fetch payload with
    | Api.Rejected e => failure_shown st (Api.exn_message e)
    | Api.Responded res =>
        if Api.ok res
        then match Api.contentType res with
             | Some ct =>
                 if Api.includes "application/json" ct
                 then match JSON_failure (Api.body res) with
                      | Some message => failure_shown st message
                      | None => (initial, [])
                      end
                 else (initial, [])
             | None => (initial, [])
             end
        else ({| formData := formData st; photo := photo st;
                 error := Some ("Failed to submit report. Details: "
                                +:+ Api.errorMessage res +:+ ".") |}, [])
    end.
Proof.
  unfold submitReport. destruct (fetch payload) as [e | res]; [reflexivity |].
  unfold Api.handleResponse. destruct (Api.ok res); simpl.
  - destruct (Api.contentType res) as [ct |];
      [destruct (Api.includes "application/json" ct) |]; try reflexivity.
    simpl. destruct (JSON_failure (Api.body res)); reflexivity.
  - reflexivity.
Qed.

End SubmissionFacts.

(** ** The first card of the dashboard *)

Section FirstCard.

Import JsArray Dashboard.

Lemma sorted_head_is_largest {A : Type} (key : A -> Z) (l : list A)
      (first : A) (rest : list A) :
  sort (descending key) l = first :: rest ->
  forall x, In x l -> (key x <= key first)%Z.
Proof.
  intros Hsort x Hx.
  pose proof (sort_sorted key l) as Hsorted. rewrite Hsort in Hsorted.
  apply (Sorted_StronglySorted (key_descends_transitive key)) in Hsorted.
  assert (Hin : In x (first :: rest)).
  { rewrite <- Hsort. eapply Permutation_in; [apply sort_permutation | exact Hx]. }
  destruct Hin as [<- | Hin]; [lia |].
  inversion Hsorted as [| ? ? _ Hall]; subst.
  rewrite List.Forall_forall in Hall. exact (Hall x Hin).
Qed.

(** X24: the first card of the dashboard is a report of the highest
    urgency present under the order by urgency (on known urgency levels),
    and a report of the latest date present under the order by date (on
    valid dates). *)
Theorem first_card_is_the_extreme_report
        (Date_parse : string -> option Z) (l : list Report)
        (first : Report) (rest : list Report) :
  (Forall known_urgency l ->
   sortedReports Date_parse (Some l) (Some "urgency_level:desc") = first :: rest ->
   forall r, In r l -> (rank_key r <= rank_key first)%Z)
  /\ (forall sortKey,
        by_date sortKey ->
        Forall (fun r => time Date_parse r <> None) l ->
        sortedReports Date_parse (Some l) sortKey = first :: rest ->
        forall r, In r l -> (time_key Date_parse r <= time_key Date_parse first)%Z).
Proof.
  split.
  - intros Hl Hsorted. rewrite sortedReports_by_urgency in Hsorted by exact Hl.
    now apply sorted_head_is_largest with (l := l) (rest := rest).
  - intros sortKey Hkey Hl Hsorted.
    rewrite sortedReports_by_date in Hsorted by assumption.
    now apply sorted_head_is_largest with (l := l) (rest := rest).
Qed.

(** The critical report among three is shown first. *)
Lemma first_card_is_the_extreme_report_witness :
  (rank_key (mkReport 1 (Some "Low") DateNull)
   <= rank_key (mkReport 2 (Some "Critical") DateNull))%Z.
Proof.
  destruct (first_card_is_the_extreme_report calendar_date_parse
              [ mkReport 1 (Some "Low") DateNull;
                mkReport 2 (Some "Critical") DateNull;
                mkReport 3 (Some "High") DateNull ]
              (mkReport 2 (Some "Critical") DateNull)
              [ mkReport 3 (Some "High") DateNull;
                mkReport 1 (Some "Low") DateNull ]) as [Hurgency _].
  apply Hurgency.
  - repeat constructor; eexists; (split; [reflexivity | simpl; auto]).
  - vm_compute. reflexivity.
  - left. reflexivity.
Defined.

End FirstCard.
